(** * Voice session core of the ESL tutor app (src/App.tsx)

    A shallow embedding of the streaming / playback engine of [App.tsx]:
    the PCM codec contract, the playback scheduler that lives inside the
    [onmessage] handler, the interruption reset ([stopAllAudio]), the
    transcript flush on [turnComplete] and the session life cycle
    ([onopen], [onerror], [onclose], [handleStartSession],
    [handleStopSession]).

    Conventions of the embedding.
    - JavaScript numbers that carry audio time or sample values are taken
      as exact rationals ([Q]) and a sum of two of them as the exact sum,
      where the code rounds the sum to a double; [Date.now()] is an
      integer ([Z]).  The statements about start times involve the order
      of the values and one sum at a time, the sum that the code computes
      and stores; none adds up several lengths.
    - React refs ([useRef]) are plain fields of the state; a state hook set
      with a plain value is a field too (its value at the next render is
      the last value set, whatever the batching).  The [messages] hook is
      set with updater closures that read refs, so its update queue is
      modelled explicitly.  React (18 and later, mounted with
      [createRoot]) batches the updates made in the session callbacks;
      whether it calls the first updater of a batch at the dispatch or at
      the render is its own decision and an input of the model.
    - Code that may throw returns [Exc]; an [async] handler is cut at its
      [await] into the part that runs at once and the continuation.
    - Calls into the audio device, the microphone and the session are
      written to a log next to the state, so that their order can be
      stated. *)

From Stdlib Require Import ZArith QArith Qminmax Qround Qabs List String Bool Lia Lqa.
From Stdlib Require Import Strings.Byte.
Import ListNotations.

Local Open Scope Z_scope.

(* ================================================================== *)
(** * PCM codec *)

Module PCM.

(** Modelled from the spec: [./utils/audio] ([createBlobFromPCM], [encode],
    [decode], [decodeAudioData]) is imported by [App.tsx] but is not among
    the sources.  The definitions of this module follow section 4.1 of the
    specification: a sample [s] becomes [round(clamp(s, -1, 1) * 32767)],
    written as two bytes, low byte first; decoding reads each pair of bytes
    as a signed 16-bit value and divides it by 32768, dropping a trailing
    odd byte. *)

Definition AudioFrame := list Q.
Definition EncodedChunk := list byte.

Local Open Scope Q_scope.

Definition clamp (s lo hi : Q) : Q := Qmax lo (Qmin hi s).

(** [Math.round]: the nearest integer, a tie going up. *)
Definition round (x : Q) : Z := Qfloor (x + (1 # 2)).

Definition to_int16 (s : Q) : Z := round (clamp s (-1) 1 * 32767).

Local Open Scope Z_scope.

Definition byte_of_Z (z : Z) : byte :=
  match Byte.of_N (Z.to_N (z mod 256)) with
  | Some b => b
  | None => x00
  end.

Definition Z_of_byte (b : byte) : Z := Z.of_N (Byte.to_N b).

(** Two's complement, little-endian. *)
Definition int16_to_le (v : Z) : list byte :=
  [byte_of_Z v; byte_of_Z (Z.shiftr v 8)].

Definition int16_of_le (lo hi : byte) : Z :=
  let u := Z.lor (Z_of_byte lo) (Z.shiftl (Z_of_byte hi) 8) in
  if u <? 32768 then u else u - 65536.

Definition from_int16 (v : Z) : Q := (inject_Z v / 32768)%Q.

(** Modelled from the spec: the encoder has "no failure modes besides
    malformed input length (must be non-empty)". *)
Definition encode (frame : AudioFrame) : option EncodedChunk :=
  match frame with
  | [] => None
  | _ => Some (flat_map (fun s => int16_to_le (to_int16 s)) frame)
  end.

(** Modelled from the spec: a chunk whose length is odd loses its last,
    partial sample. *)
Fixpoint decode (chunk : EncodedChunk) : AudioFrame :=
  match chunk with
  | lo :: hi :: rest => from_int16 (int16_of_le lo hi) :: decode rest
  | _ => []
  end.

Definition in_range (s : Q) : Prop := (-1 <= s /\ s <= 1)%Q.

Definition close_to (eps : Q) (s r : Q) : Prop := (Qabs (r - s) <= eps)%Q.

(** A sample that a 32-bit float holds exactly: 7/8 + 2^-17. *)
Definition off_grid_sample : Q := (114689 # 131072)%Q.

End PCM.

(* ================================================================== *)
(** * The App component *)

Module App.

Local Open Scope string_scope.

(** ** types.ts *)

Inductive SessionState := DISCONNECTED | CONNECTING | CONNECTED | ERROR.

Inductive Role := user | professor.

Record TranscriptionMessage := {
  role : Role;
  text : string;
  timestamp : Z
}.

(** ** Inbound messages of the live session

    Every field is optional, as in the handler's optional chains;
    an absent boolean flag is [false]. *)

Record Transcription := { transcriptionText : option string }.
Record Blob := { data : option string }.
Record Part := { inlineData : option Blob }.
Record Content := { parts : option (list Part) }.

Record LiveServerContent := {
  inputTranscription : option Transcription;
  outputTranscription : option Transcription;
  turnComplete : bool;
  modelTurn : option Content;
  interrupted : bool
}.

Record LiveServerMessage := { serverContent : option LiveServerContent }.

(** ** Browser objects *)

Record AudioContext := { contextSampleRate : positive }.

(** A decoded buffer; [duration] is its length over its sample rate. *)
Record AudioBuffer := { bufferLength : N; bufferSampleRate : positive }.

Definition duration (b : AudioBuffer) : Q :=
  Z.of_N (bufferLength b) # bufferSampleRate b.

(** A source node is an object with an identity.  [ended] is set by the
    device when the node has played to its end; the [ended] event that
    runs [onended] is dispatched later. *)
Record AudioBufferSourceNode := {
  nodeId : nat;
  buffer : AudioBuffer;
  ended : bool
}.

Inductive ReadyState := live | trackEnded.

Record MediaStreamTrack := { trackId : nat; readyState : ReadyState }.

Definition MediaStream := list MediaStreamTrack.

Record Session := { sessionId : nat }.

Record JsError := { errorName : string; errorMessageText : option string }.

Definition TypeError : JsError :=
  {| errorName := "TypeError"; errorMessageText := None |}.
Definition InvalidStateError : JsError :=
  {| errorName := "InvalidStateError"; errorMessageText := None |}.

(** Calls on objects outside the component, and the clearing of the set of
    in-flight sources, in the order in which they happen. *)
Inductive Effect :=
| SourceStart (node : nat) (when : Q) (length : Q)
| SourceStop (node : nat)
| SourcesCleared
| TrackStop (track : nat)
| SessionClose (session : nat).

(** ** The [messages] state hook

    [setMessages] is only ever called with one of two updater closures,
    [prev => [...prev, { role, text: <ref>.current, timestamp: Date.now() }]],
    which read the transcript ref of their role and the clock when React
    calls them, not when they are created. *)
Inductive MessagesUpdater := AppendTranscript (r : Role).

(** An entry of the hook's update queue.  React may compute the new state
    at once ([eagerState]) for an update dispatched while the component
    has no work pending; any other update keeps its closure until the next
    render. *)
Record Update := {
  action : MessagesUpdater;
  eagerState : option (list TranscriptionMessage)
}.

(** ** Component state: state hooks, refs, and the world they act on *)

Record State := {
  sessionState : SessionState;
  messages : list TranscriptionMessage;
  messagesQueue : list Update;
  isProfessorSpeaking : bool;
  errorMessage : option string;
  sessionRef : option Session;
  inputAudioCtxRef : option AudioContext;
  outputAudioCtxRef : option AudioContext;
  micStreamRef : option MediaStream;
  nextStartTimeRef : Q;
  audioSourcesRef : list AudioBufferSourceNode;
  currentInputTransRef : string;
  currentOutputTransRef : string;
  nextNodeId : nat
}.

Definition initial : State := {|
  sessionState := DISCONNECTED;
  messages := [];
  messagesQueue := [];
  isProfessorSpeaking := false;
  errorMessage := None;
  sessionRef := None;
  inputAudioCtxRef := None;
  outputAudioCtxRef := None;
  micStreamRef := None;
  nextStartTimeRef := 0%Q;
  audioSourcesRef := [];
  currentInputTransRef := "";
  currentOutputTransRef := "";
  nextNodeId := 0%nat
|}.

(** Field updates. *)

Definition with_sessionState (v : SessionState) (s : State) : State :=
  {| sessionState := v; messages := messages s;
     messagesQueue := messagesQueue s;
     isProfessorSpeaking := isProfessorSpeaking s;
     errorMessage := errorMessage s; sessionRef := sessionRef s;
     inputAudioCtxRef := inputAudioCtxRef s;
     outputAudioCtxRef := outputAudioCtxRef s;
     micStreamRef := micStreamRef s; nextStartTimeRef := nextStartTimeRef s;
     audioSourcesRef := audioSourcesRef s;
     currentInputTransRef := currentInputTransRef s;
     currentOutputTransRef := currentOutputTransRef s;
     nextNodeId := nextNodeId s |}.

Definition with_messages (v : list TranscriptionMessage)
    (q : list Update) (s : State) : State :=
  {| sessionState := sessionState s; messages := v; messagesQueue := q;
     isProfessorSpeaking := isProfessorSpeaking s;
     errorMessage := errorMessage s; sessionRef := sessionRef s;
     inputAudioCtxRef := inputAudioCtxRef s;
     outputAudioCtxRef := outputAudioCtxRef s;
     micStreamRef := micStreamRef s; nextStartTimeRef := nextStartTimeRef s;
     audioSourcesRef := audioSourcesRef s;
     currentInputTransRef := currentInputTransRef s;
     currentOutputTransRef := currentOutputTransRef s;
     nextNodeId := nextNodeId s |}.

Definition with_isProfessorSpeaking (v : bool) (s : State) : State :=
  {| sessionState := sessionState s; messages := messages s;
     messagesQueue := messagesQueue s; isProfessorSpeaking := v;
     errorMessage := errorMessage s; sessionRef := sessionRef s;
     inputAudioCtxRef := inputAudioCtxRef s;
     outputAudioCtxRef := outputAudioCtxRef s;
     micStreamRef := micStreamRef s; nextStartTimeRef := nextStartTimeRef s;
     audioSourcesRef := audioSourcesRef s;
     currentInputTransRef := currentInputTransRef s;
     currentOutputTransRef := currentOutputTransRef s;
     nextNodeId := nextNodeId s |}.

Definition with_errorMessage (v : option string) (s : State) : State :=
  {| sessionState := sessionState s; messages := messages s;
     messagesQueue := messagesQueue s;
     isProfessorSpeaking := isProfessorSpeaking s;
     errorMessage := v; sessionRef := sessionRef s;
     inputAudioCtxRef := inputAudioCtxRef s;
     outputAudioCtxRef := outputAudioCtxRef s;
     micStreamRef := micStreamRef s; nextStartTimeRef := nextStartTimeRef s;
     audioSourcesRef := audioSourcesRef s;
     currentInputTransRef := currentInputTransRef s;
     currentOutputTransRef := currentOutputTransRef s;
     nextNodeId := nextNodeId s |}.

Definition with_sessionRef (v : option Session) (s : State) : State :=
  {| sessionState := sessionState s; messages := messages s;
     messagesQueue := messagesQueue s;
     isProfessorSpeaking := isProfessorSpeaking s;
     errorMessage := errorMessage s; sessionRef := v;
     inputAudioCtxRef := inputAudioCtxRef s;
     outputAudioCtxRef := outputAudioCtxRef s;
     micStreamRef := micStreamRef s; nextStartTimeRef := nextStartTimeRef s;
     audioSourcesRef := audioSourcesRef s;
     currentInputTransRef := currentInputTransRef s;
     currentOutputTransRef := currentOutputTransRef s;
     nextNodeId := nextNodeId s |}.

Definition with_audioContexts (i o : option AudioContext) (s : State)
    : State :=
  {| sessionState := sessionState s; messages := messages s;
     messagesQueue := messagesQueue s;
     isProfessorSpeaking := isProfessorSpeaking s;
     errorMessage := errorMessage s; sessionRef := sessionRef s;
     inputAudioCtxRef := i; outputAudioCtxRef := o;
     micStreamRef := micStreamRef s; nextStartTimeRef := nextStartTimeRef s;
     audioSourcesRef := audioSourcesRef s;
     currentInputTransRef := currentInputTransRef s;
     currentOutputTransRef := currentOutputTransRef s;
     nextNodeId := nextNodeId s |}.

Definition with_micStreamRef (v : option MediaStream) (s : State) : State :=
  {| sessionState := sessionState s; messages := messages s;
     messagesQueue := messagesQueue s;
     isProfessorSpeaking := isProfessorSpeaking s;
     errorMessage := errorMessage s; sessionRef := sessionRef s;
     inputAudioCtxRef := inputAudioCtxRef s;
     outputAudioCtxRef := outputAudioCtxRef s;
     micStreamRef := v; nextStartTimeRef := nextStartTimeRef s;
     audioSourcesRef := audioSourcesRef s;
     currentInputTransRef := currentInputTransRef s;
     currentOutputTransRef := currentOutputTransRef s;
     nextNodeId := nextNodeId s |}.

Definition with_nextStartTimeRef (v : Q) (s : State) : State :=
  {| sessionState := sessionState s; messages := messages s;
     messagesQueue := messagesQueue s;
     isProfessorSpeaking := isProfessorSpeaking s;
     errorMessage := errorMessage s; sessionRef := sessionRef s;
     inputAudioCtxRef := inputAudioCtxRef s;
     outputAudioCtxRef := outputAudioCtxRef s;
     micStreamRef := micStreamRef s; nextStartTimeRef := v;
     audioSourcesRef := audioSourcesRef s;
     currentInputTransRef := currentInputTransRef s;
     currentOutputTransRef := currentOutputTransRef s;
     nextNodeId := nextNodeId s |}.

Definition with_audioSourcesRef (v : list AudioBufferSourceNode)
    (s : State) : State :=
  {| sessionState := sessionState s; messages := messages s;
     messagesQueue := messagesQueue s;
     isProfessorSpeaking := isProfessorSpeaking s;
     errorMessage := errorMessage s; sessionRef := sessionRef s;
     inputAudioCtxRef := inputAudioCtxRef s;
     outputAudioCtxRef := outputAudioCtxRef s;
     micStreamRef := micStreamRef s; nextStartTimeRef := nextStartTimeRef s;
     audioSourcesRef := v;
     currentInputTransRef := currentInputTransRef s;
     currentOutputTransRef := currentOutputTransRef s;
     nextNodeId := nextNodeId s |}.

Definition with_currentInputTransRef (v : string) (s : State) : State :=
  {| sessionState := sessionState s; messages := messages s;
     messagesQueue := messagesQueue s;
     isProfessorSpeaking := isProfessorSpeaking s;
     errorMessage := errorMessage s; sessionRef := sessionRef s;
     inputAudioCtxRef := inputAudioCtxRef s;
     outputAudioCtxRef := outputAudioCtxRef s;
     micStreamRef := micStreamRef s; nextStartTimeRef := nextStartTimeRef s;
     audioSourcesRef := audioSourcesRef s;
     currentInputTransRef := v;
     currentOutputTransRef := currentOutputTransRef s;
     nextNodeId := nextNodeId s |}.

Definition with_currentOutputTransRef (v : string) (s : State) : State :=
  {| sessionState := sessionState s; messages := messages s;
     messagesQueue := messagesQueue s;
     isProfessorSpeaking := isProfessorSpeaking s;
     errorMessage := errorMessage s; sessionRef := sessionRef s;
     inputAudioCtxRef := inputAudioCtxRef s;
     outputAudioCtxRef := outputAudioCtxRef s;
     micStreamRef := micStreamRef s; nextStartTimeRef := nextStartTimeRef s;
     audioSourcesRef := audioSourcesRef s;
     currentInputTransRef := currentInputTransRef s;
     currentOutputTransRef := v;
     nextNodeId := nextNodeId s |}.

Definition with_nextNodeId (v : nat) (s : State) : State :=
  {| sessionState := sessionState s; messages := messages s;
     messagesQueue := messagesQueue s;
     isProfessorSpeaking := isProfessorSpeaking s;
     errorMessage := errorMessage s; sessionRef := sessionRef s;
     inputAudioCtxRef := inputAudioCtxRef s;
     outputAudioCtxRef := outputAudioCtxRef s;
     micStreamRef := micStreamRef s; nextStartTimeRef := nextStartTimeRef s;
     audioSourcesRef := audioSourcesRef s;
     currentInputTransRef := currentInputTransRef s;
     currentOutputTransRef := currentOutputTransRef s;
     nextNodeId := v |}.

(** ** A monad for handler code: state, a log of the calls made, and
    exceptions that keep the state reached when they were thrown *)

Inductive Result (A : Type) :=
| Returned (a : A)
| Thrown (e : JsError).
Arguments Returned {A} a.
Arguments Thrown {A} e.

Definition Js (A : Type) : Type := State -> Result A * State * list Effect.

Definition ret {A} (a : A) : Js A := fun s => (Returned a, s, []).

Definition throw {A} (e : JsError) : Js A := fun s => (Thrown e, s, []).

Definition bind {A B} (c : Js A) (k : A -> Js B) : Js B :=
  fun s => match c s with
           | (Returned a, s', log) =>
               match k a s' with
               | (r, s'', log') => (r, s'', (log ++ log')%list)
               end
           | (Thrown e, s', log) => (Thrown e, s', log)
           end.

Definition try_catch {A} (c : Js A) (h : JsError -> Js A) : Js A :=
  fun s => match c s with
           | (Returned a, s', log) => (Returned a, s', log)
           | (Thrown e, s', log) =>
               match h e s' with
               | (r, s'', log') => (r, s'', (log ++ log')%list)
               end
           end.

Definition gets {A} (f : State -> A) : Js A :=
  fun s => (Returned (f s), s, []).

Definition modify (f : State -> State) : Js unit :=
  fun s => (Returned tt, f s, []).

Definition emit (e : Effect) : Js unit := fun s => (Returned tt, s, [e]).

(** A value or an exception computed without the state. *)
Definition lift {A} (r : Result A) : Js A := fun s => (r, s, []).

Definition outcome {A} (c : Js A) (s : State) : Result A := fst (fst (c s)).

Definition exec {A} (c : Js A) (s : State) : State := snd (fst (c s)).

Definition emitted {A} (c : Js A) (s : State) : list Effect := snd (c s).

Declare Scope js_scope.
Delimit Scope js_scope with js.
Notation "x <- c ;; k" := (bind c (fun x => k))
  (at level 61, c at next level, right associativity) : js_scope.
Notation "c ;; k" := (bind c (fun _ => k))
  (at level 61, right associativity) : js_scope.
Local Open Scope js_scope.

Definition when (b : bool) (c : Js unit) : Js unit :=
  if b then c else ret tt.

Fixpoint forEach {A} (f : A -> Js unit) (l : list A) : Js unit :=
  match l with
  | [] => ret tt
  | x :: l' => f x ;; forEach f l'
  end.

(** What a handler finds when it runs: [ctx.currentTime] of the output
    context, [Date.now()], and whether React holds the component idle (no
    update and no render pending on it, in React's own bookkeeping, which
    the component cannot read). *)
Record Env := { currentTime : Q; dateNow : Z; reactIdle : bool }.

(** ** JavaScript values *)

(** A string in a condition: true unless empty. *)
Definition truthy (str : string) : bool := negb (String.eqb str "").

(** [acc += t.text]: an absent [text] is appended as the word
    [undefined]. *)
Definition append_text (acc : string) (t : Transcription) : string :=
  acc ++ match transcriptionText t with
         | Some x => x
         | None => "undefined"
         end.

(** [message.serverContent?.inputTranscription] and the like. *)
Definition inputTranscription_of (m : LiveServerMessage)
    : option Transcription :=
  match serverContent m with
  | Some c => inputTranscription c
  | None => None
  end.

Definition outputTranscription_of (m : LiveServerMessage)
    : option Transcription :=
  match serverContent m with
  | Some c => outputTranscription c
  | None => None
  end.

Definition turnComplete_of (m : LiveServerMessage) : bool :=
  match serverContent m with
  | Some c => turnComplete c
  | None => false
  end.

Definition interrupted_of (m : LiveServerMessage) : bool :=
  match serverContent m with
  | Some c => interrupted c
  | None => false
  end.

(** [message.serverContent?.modelTurn?.parts[0]?.inlineData?.data]:
    there is no [?.] between [parts] and [[0]], so a model turn without
    [parts] throws. *)
Definition base64Audio_of (m : LiveServerMessage) : Result (option string) :=
  match serverContent m with
  | None => Returned None
  | Some c =>
      match modelTurn c with
      | None => Returned None
      | Some turn =>
          match parts turn with
          | None => Thrown TypeError
          | Some [] => Returned None
          | Some (p :: _) =>
              match inlineData p with
              | None => Returned None
              | Some b => Returned (data b)
              end
          end
      end
  end.

(** ** State hooks *)

Definition setSessionState (v : SessionState) : Js unit :=
  modify (with_sessionState v).

Definition setIsProfessorSpeaking (v : bool) : Js unit :=
  modify (with_isProfessorSpeaking v).

Definition setErrorMessage (v : option string) : Js unit :=
  modify (with_errorMessage v).

Definition transcriptRef (r : Role) (s : State) : string :=
  match r with
  | user => currentInputTransRef s
  | professor => currentOutputTransRef s
  end.

(** Calling an updater closure: the ref and the clock are read now. *)
Definition run_updater (env : Env) (s : State) (u : MessagesUpdater)
    (prev : list TranscriptionMessage) : list TranscriptionMessage :=
  match u with
  | AppendTranscript r =>
      prev ++ [{| role := r; text := transcriptRef r s;
                  timestamp := dateNow env |}]
  end.

(** [setMessages(updater)].  The session callbacks run outside React's
    own event handlers; React (18 and later, [createRoot]) batches the
    updates made there and renders after the callback has returned, and
    the render calls the queued updaters.  React calls an updater at the
    dispatch only when it holds the component idle, which takes more than
    an empty queue of this hook (an update of another hook, or a render
    that has only just committed, is enough to make it wait): the updater
    is called at the dispatch when [reactIdle] says so and nothing is
    queued, and by the next render otherwise.  A second update of the
    same handler is never called at the dispatch. *)
Definition setMessages (env : Env) (u : MessagesUpdater) : Js unit :=
  modify (fun s =>
    let upd :=
      match messagesQueue s with
      | [] =>
          if reactIdle env
          then {| action := u;
                  eagerState := Some (run_updater env s u (messages s)) |}
          else {| action := u; eagerState := None |}
      | _ :: _ => {| action := u; eagerState := None |}
      end in
    with_messages (messages s) (messagesQueue s ++ [upd]) s).

Definition process_update (env : Env) (s : State)
    (st : list TranscriptionMessage) (upd : Update)
    : list TranscriptionMessage :=
  match eagerState upd with
  | Some eager => eager
  | None => run_updater env s (action upd) st
  end.

(** The next render: the queued updates are applied in order. *)
Definition render (env : Env) : Js unit :=
  modify (fun s =>
    with_messages
      (fold_left (process_update env s) (messagesQueue s) (messages s))
      [] s).

(** The message log that the next render shows. *)
Definition messageLog (env : Env) (s : State) : list TranscriptionMessage :=
  messages (exec (render env) s).

(** ** The set of in-flight sources ([Set<AudioBufferSourceNode>]) *)

Definition same_node (a b : AudioBufferSourceNode) : bool :=
  Nat.eqb (nodeId a) (nodeId b).

Definition set_add (n : AudioBufferSourceNode)
    (l : list AudioBufferSourceNode) : list AudioBufferSourceNode :=
  if existsb (same_node n) l then l else l ++ [n].

Definition set_delete (n : AudioBufferSourceNode)
    (l : list AudioBufferSourceNode) : list AudioBufferSourceNode :=
  filter (fun x => negb (same_node n x)) l.

(** [ctx.createBufferSource()] with [source.buffer = audioBuffer]. *)
Definition createBufferSource (audioBuffer : AudioBuffer)
    : Js AudioBufferSourceNode :=
  fun s =>
    (Returned {| nodeId := nextNodeId s; buffer := audioBuffer;
                 ended := false |},
     with_nextNodeId (S (nextNodeId s)) s, []).

Definition source_start (source : AudioBufferSourceNode) (t : Q)
    : Js unit :=
  emit (SourceStart (nodeId source) t (duration (buffer source))).

(** [source.stop()] may be refused by the device; the one case the
    handler's [try]/[catch] is written for is a node that has already
    played to its end. *)
Definition source_stop (source : AudioBufferSourceNode) : Js unit :=
  if ended source then throw InvalidStateError
  else emit (SourceStop (nodeId source)).

(** ** stopAllAudio (App.tsx 50-57) *)

Definition stopAllAudio : Js unit :=
  sources <- gets audioSourcesRef ;;
  forEach (fun source => try_catch (source_stop source) (fun _ => ret tt))
          sources ;;
  modify (with_audioSourcesRef []) ;;
  emit SourcesCleared ;;
  modify (with_nextStartTimeRef 0%Q) ;;
  setIsProfessorSpeaking false.

(** ** onmessage (App.tsx 101-147) *)

(** What the handler keeps across its [await]. *)
Record Pending := {
  pendingMessage : LiveServerMessage;
  pendingAudio : string
}.

Definition handle_transcriptions (env : Env) (m : LiveServerMessage)
    : Js unit :=
  match inputTranscription_of m with
  | Some t =>
      modify (fun s =>
        with_currentInputTransRef (append_text (currentInputTransRef s) t) s)
  | None => ret tt
  end ;;
  match outputTranscription_of m with
  | Some t =>
      modify (fun s =>
        with_currentOutputTransRef
          (append_text (currentOutputTransRef s) t) s)
  | None => ret tt
  end ;;
  when (turnComplete_of m)
    (cin <- gets currentInputTransRef ;;
     when (truthy cin) (setMessages env (AppendTranscript user)) ;;
     cout <- gets currentOutputTransRef ;;
     when (truthy cout) (setMessages env (AppendTranscript professor)) ;;
     modify (with_currentInputTransRef "") ;;
     modify (with_currentOutputTransRef "")).

Definition handle_interrupted (m : LiveServerMessage) : Js unit :=
  when (interrupted_of m) stopAllAudio.

(** From the arrival of the message to the [await] of the decoder, or to
    the end when the message has no audio to play.  [Some p] is returned
    when the handler is suspended.  [decode] and [decodeAudioData] belong
    to [./utils/audio]; when they throw or reject the handler ends there
    and its continuation never runs. *)
Definition onmessage_begin (env : Env) (m : LiveServerMessage)
    : Js (option Pending) :=
  handle_transcriptions env m ;;
  base64Audio <- lift (base64Audio_of m) ;;
  ctx <- gets outputAudioCtxRef ;;
  match base64Audio, ctx with
  | Some b64, Some _ =>
      if truthy b64 then
        setIsProfessorSpeaking true ;;
        modify (fun s =>
          with_nextStartTimeRef
            (Qmax (nextStartTimeRef s) (currentTime env)) s) ;;
        ret (Some {| pendingMessage := m; pendingAudio := b64 |})
      else handle_interrupted m ;; ret None
  | _, _ => handle_interrupted m ;; ret None
  end.

(** The node's [onended] callback. *)
Definition onended (source : AudioBufferSourceNode) : Js unit :=
  modify (fun s =>
    with_audioSourcesRef (set_delete source (audioSourcesRef s)) s) ;;
  sources <- gets audioSourcesRef ;;
  when (Nat.eqb (List.length sources) 0) (setIsProfessorSpeaking false).

(** From the decoder's answer [audioBuffer] to the end of the handler.
    The cursor is read when the decoder has answered, not when the message
    arrived; [+=] is the exact sum here and the sum rounded to a double in
    the code. *)
Definition onmessage_resume (p : Pending) (audioBuffer : AudioBuffer)
    : Js unit :=
  source <- createBufferSource audioBuffer ;;
  t <- gets nextStartTimeRef ;;
  source_start source t ;;
  modify (fun s =>
    with_nextStartTimeRef (nextStartTimeRef s + duration audioBuffer)%Q s) ;;
  modify (fun s =>
    with_audioSourcesRef (set_add source (audioSourcesRef s)) s) ;;
  handle_interrupted (pendingMessage p).

(** One message handled from start to end with nothing in between: the
    decoder answers [audioBuffer] if it is asked at all. *)
Definition onmessage (env : Env) (m : LiveServerMessage)
    (audioBuffer : AudioBuffer) : Js unit :=
  p <- onmessage_begin env m ;;
  match p with
  | Some p' => onmessage_resume p' audioBuffer
  | None => ret tt
  end.

(** ** Session callbacks and buttons

    The sources hold a second version of the component with the same
    handlers; it differs in the two texts below, which read
    "Session timeout. Please restart for zero-delay coaching." and
    "Failed to connect to Claire." there. *)

Definition transportErrorText : string :=
  "Connection lost. Please check your internet and try again.".

Definition setupFallbackText : string :=
  "Could not connect to Professor Claire.".

(** The capture graph that [onopen] builds (script processor,
    [createBlobFromPCM], [sendRealtimeInput]) acts on none of the fields
    above and is left out. *)
Definition onopen : Js unit := setSessionState CONNECTED.

Definition onerror : Js unit :=
  setErrorMessage (Some transportErrorText) ;;
  setSessionState ERROR.

Definition onclose : Js unit := setSessionState DISCONNECTED.

(** [handleStartSession] up to [await getUserMedia]. *)
Definition handleStartSession_begin : Js unit :=
  setSessionState CONNECTING ;;
  setErrorMessage None ;;
  modify (with_audioContexts
            (Some {| contextSampleRate := 16000 |})
            (Some {| contextSampleRate := 24000 |})).

(** [getUserMedia] answered with [stream]; [ai.live.connect] is called and
    awaited. *)
Definition handleStartSession_stream (stream : MediaStream) : Js unit :=
  modify (with_micStreamRef (Some stream)).

(** [sessionRef.current = await sessionPromise]. *)
Definition handleStartSession_session (session : Session) : Js unit :=
  modify (with_sessionRef (Some session)).

(** The [catch] block: [err.message || "Could not connect ..."]. *)
Definition handleStartSession_catch (err : JsError) : Js unit :=
  setErrorMessage
    (Some match errorMessageText err with
          | Some msg => if truthy msg then msg else setupFallbackText
          | None => setupFallbackText
          end) ;;
  setSessionState ERROR.

Definition stop_track (t : MediaStreamTrack) : MediaStreamTrack :=
  {| trackId := trackId t; readyState := trackEnded |}.

(** [t.stop()] on a track of the stream held by [micStreamRef]. *)
Definition track_stop (t : MediaStreamTrack) : Js unit :=
  modify (fun s =>
    with_micStreamRef
      (option_map
         (map (fun x =>
                 if Nat.eqb (trackId x) (trackId t) then stop_track x
                 else x))
         (micStreamRef s)) s) ;;
  emit (TrackStop (trackId t)).

(** handleStopSession (App.tsx 167-177).  [close()] on the session and
    [stop()] on a track do not throw. *)
Definition handleStopSession : Js unit :=
  session <- gets sessionRef ;;
  match session with
  | Some sess =>
      emit (SessionClose (sessionId sess)) ;;
      modify (with_sessionRef None)
  | None => ret tt
  end ;;
  mic <- gets micStreamRef ;;
  match mic with
  | Some stream => forEach track_stop stream
  | None => ret tt
  end ;;
  stopAllAudio ;;
  setSessionState DISCONNECTED.

(** ** The event loop

    Everything that can run next: a button, an answer to an [await], a
    callback of the session or of the audio device, a render. *)
Inductive Event :=
| ClickStart
| MicrophoneGranted (stream : MediaStream)
| SessionResolved (session : Session)
| StartFailed (err : JsError)
| Open
| Message (m : LiveServerMessage)
| Decoded (p : Pending) (audioBuffer : AudioBuffer)
| PlaybackFinished (node : nat)
| Ended (source : AudioBufferSourceNode)
| TransportError
| Close
| ClickStop
| Render.

(** The device marks a node as played to its end. *)
Definition playback_finished (node : nat) : Js unit :=
  modify (fun s =>
    with_audioSourcesRef
      (map (fun x =>
              if Nat.eqb (nodeId x) node
              then {| nodeId := nodeId x; buffer := buffer x; ended := true |}
              else x)
           (audioSourcesRef s)) s).

Definition dispatch (env : Env) (e : Event) : Js unit :=
  match e with
  | ClickStart => handleStartSession_begin
  | MicrophoneGranted stream => handleStartSession_stream stream
  | SessionResolved session => handleStartSession_session session
  | StartFailed err => handleStartSession_catch err
  | Open => onopen
  | Message m => onmessage_begin env m ;; ret tt
  | Decoded p audioBuffer => onmessage_resume p audioBuffer
  | PlaybackFinished node => playback_finished node
  | Ended source => onended source
  | TransportError => onerror
  | Close => onclose
  | ClickStop => handleStopSession
  | Render => render env
  end.

(** A run of the loop; a handler that throws leaves the state it reached. *)
Fixpoint run (evs : list (Env * Event)) (s : State) : State :=
  match evs with
  | [] => s
  | (env, e) :: rest => run rest (exec (dispatch env e) s)
  end.

(** The calls made during a run. *)
Fixpoint trace (evs : list (Env * Event)) (s : State) : list Effect :=
  match evs with
  | [] => []
  | (env, e) :: rest =>
      (emitted (dispatch env e) s
       ++ trace rest (exec (dispatch env e) s))%list
  end.

End App.

(* ================================================================== *)
(** * Derived notions and example runs *)

Module Derived.
Import App.
Local Open Scope js_scope.

(** The [stop()] calls that go through: one per source not yet ended. *)
Definition stop_calls (l : list AudioBufferSourceNode) : list Effect :=
  map (fun source => SourceStop (nodeId source))
      (filter (fun source => negb (ended source)) l).

Definition swallow_stop (source : AudioBufferSourceNode) : Js unit :=
  try_catch (source_stop source) (fun _ => ret tt).

(** The state that [stopAllAudio] leaves. *)
Definition reset_state (s : State) : State :=
  with_isProfessorSpeaking false
    (with_nextStartTimeRef 0%Q (with_audioSourcesRef [] s)).

(** The state after the transcription lines (103-118) of the handler. *)
Definition transcribed (env : Env) (m : LiveServerMessage) (s : State)
    : State :=
  exec (handle_transcriptions env m) s.

(** The source node that [onmessage] creates in state [s]. *)
Definition new_source (audioBuffer : AudioBuffer) (s : State)
    : AudioBufferSourceNode :=
  {| nodeId := nextNodeId s; buffer := audioBuffer; ended := false |}.

(** The start time that an enqueue beginning in state [s] passes to
    [source.start]. *)
Definition start_time (env : Env) (s : State) : Q :=
  Qmax (nextStartTimeRef s) (currentTime env).

(** The state after lines 123-141 when nothing runs during the [await]. *)
Definition enqueued (env : Env) (audioBuffer : AudioBuffer) (s : State)
    : State :=
  with_audioSourcesRef
    (set_add (new_source audioBuffer s) (audioSourcesRef s))
    (with_nextStartTimeRef (start_time env s + duration audioBuffer)%Q
       (with_nextNodeId (S (nextNodeId s))
          (with_isProfessorSpeaking true s))).

Definition carries_audio (m : LiveServerMessage) : Prop :=
  exists b64, base64Audio_of m = Returned (Some b64) /\ truthy b64 = true.

Definition some_audio : string := "UklGRg=="%string.

Definition microphone : MediaStream := [{| trackId := 0; readyState := live |}].

(** The clocks at [t] and [ms], with React not holding the component
    idle. *)
Definition at_time (t : Q) (ms : Z) : Env :=
  {| currentTime := t; dateNow := ms; reactIdle := false |}.

(** A session that has been started and has opened. *)
Definition connected : State :=
  run [(at_time 0 1000, ClickStart);
       (at_time 0 1200, MicrophoneGranted microphone);
       (at_time 0 1500, Open);
       (at_time 0 1501, SessionResolved {| sessionId := 7 |})]
      initial.

Definition audio_part (b64 : string) : option Content :=
  Some {| parts := Some [{| inlineData := Some {| data := Some b64 |} |}] |}.

Definition audio_message (b64 : string) : LiveServerMessage :=
  {| serverContent :=
       Some {| inputTranscription := None; outputTranscription := None;
               turnComplete := false; modelTurn := audio_part b64;
               interrupted := false |} |}.

(** Audio and the interrupted flag in one message. *)
Definition barge_in_message : LiveServerMessage :=
  {| serverContent :=
       Some {| inputTranscription := None; outputTranscription := None;
               turnComplete := false; modelTurn := audio_part some_audio;
               interrupted := true |} |}.

(** The interrupted flag alone. *)
Definition interrupt_message : LiveServerMessage :=
  {| serverContent :=
       Some {| inputTranscription := None; outputTranscription := None;
               turnComplete := false; modelTurn := None;
               interrupted := true |} |}.

(** Half a second of audio at 24 kHz. *)
Definition half_second : AudioBuffer :=
  {| bufferLength := 12000; bufferSampleRate := 24000 |}.

(** A connected session with one source in flight. *)
Definition playing : State :=
  exec (onmessage (at_time (5 # 2) 2000) (audio_message some_audio)
          half_second) connected.

(** No [SourceStart] comes before the first [SourcesCleared]. *)
Fixpoint reset_comes_first (log : list Effect) : bool :=
  match log with
  | [] => true
  | SourcesCleared :: _ => true
  | SourceStart _ _ _ :: _ => false
  | _ :: rest => reset_comes_first rest
  end.

(** The second half of the handler, in any state. *)
Definition appended (audioBuffer : AudioBuffer) (s : State) : State :=
  with_audioSourcesRef
    (set_add (new_source audioBuffer s) (audioSourcesRef s))
    (with_nextStartTimeRef (nextStartTimeRef s + duration audioBuffer)%Q
       (with_nextNodeId (S (nextNodeId s)) s)).

Definition stop_in (stream : MediaStream) (x : MediaStreamTrack)
    : MediaStreamTrack :=
  if existsb (fun t => Nat.eqb (trackId x) (trackId t)) stream
  then stop_track x else x.

(** The stream after [getTracks().forEach(t => t.stop())]. *)
Definition stopped (mic : option MediaStream) : option MediaStream :=
  option_map (fun stream => map (stop_in stream) stream) mic.

Definition close_calls (session : option Session) : list Effect :=
  match session with
  | Some sess => [SessionClose (sessionId sess)]
  | None => []
  end.

Definition track_stops (mic : option MediaStream) : list Effect :=
  match mic with
  | Some stream => map (fun t => TrackStop (trackId t)) stream
  | None => []
  end.


(** The segments handed to the device: start time and length of every
    [source.start] call, in call order. *)
Fixpoint segments (log : list Effect) : list (Q * Q) :=
  match log with
  | [] => []
  | SourceStart _ t d :: rest => (t, d) :: segments rest
  | _ :: rest => segments rest
  end.


(** What a handler of [audio_message some_audio] keeps across its
    [await]. *)
Definition waiting_audio : Pending :=
  {| pendingMessage := audio_message some_audio;
     pendingAudio := some_audio |}.




(** A message with audio, the interruption and the decoder's answer for
    the first message, in this order. *)
Definition decode_after_reset : list (Env * Event) :=
  [(at_time 3 2400, Message (audio_message some_audio));
   (at_time 3 2410, Message interrupt_message);
   (at_time (7 # 2) 2500, Decoded waiting_audio half_second)].

Definition fragment_message (r : Role) (fragment : string)
    : LiveServerMessage :=
  let t := Some {| transcriptionText := Some fragment |} in
  {| serverContent :=
       Some {| inputTranscription :=
                 match r with user => t | professor => None end;
               outputTranscription :=
                 match r with user => None | professor => t end;
               turnComplete := false; modelTurn := None;
               interrupted := false |} |}.

Definition turn_complete_message : LiveServerMessage :=
  {| serverContent :=
       Some {| inputTranscription := None; outputTranscription := None;
               turnComplete := true; modelTurn := None;
               interrupted := false |} |}.

(** Both speakers have said something in this turn. *)
Definition both_spoke : State :=
  run [(at_time 1 2000, Message (fragment_message user "Hello "%string));
       (at_time 1 2100, Message (fragment_message user "world"%string));
       (at_time 2 2200, Message (fragment_message professor "Hi "%string));
       (at_time 2 2300, Message (fragment_message professor "there"%string));
       (at_time 2 2301, Render)]
      connected.

(** The end of a turn, carrying a last fragment of the user's speech. *)
Definition closing_message : LiveServerMessage :=
  {| serverContent :=
       Some {| inputTranscription :=
                 Some {| transcriptionText := Some "!"%string |};
               outputTranscription := None;
               turnComplete := true; modelTurn := None;
               interrupted := false |} |}.

(** Only the user has said something in this turn. *)
Definition only_user_spoke : State :=
  with_currentOutputTransRef ""%string both_spoke.

(** A model turn without [parts], with the interrupted flag. *)
Definition turn_without_parts : LiveServerContent :=
  {| inputTranscription := None; outputTranscription := None;
     turnComplete := false; modelTurn := Some {| parts := None |};
     interrupted := true |}.

(** *** Invariants and observations of whole runs *)

(** [c] keeps [P]: from a state with [P] it ends, or throws, in a state
    with [P]. *)
Definition preserves {A} (P : State -> Prop) (c : Js A) : Prop :=
  forall s, P s -> P (exec c s).

(** While a source is in flight the speaking flag is up. *)
Definition speaking_covers (s : State) : Prop :=
  audioSourcesRef s <> [] -> isProfessorSpeaking s = true.

(** The shape of the update queue of [messages]: its first entry waits
    or was computed at once from the rendered log, the others wait. *)
Definition queue_ok (s : State) : Prop :=
  match messagesQueue s with
  | [] => True
  | u :: rest =>
      (eagerState u = None
       \/ exists x, eagerState u = Some (messages s ++ [x]))
      /\ Forall (fun v => eagerState v = None) rest
  end.

Definition is_message (e : Event) : bool :=
  match e with
  | Message _ => true
  | _ => false
  end.

(** Events that run [stopAllAudio]. *)
Definition resets (e : Event) : bool :=
  match e with
  | Message m => interrupted_of m
  | Decoded p _ => interrupted_of (pendingMessage p)
  | ClickStop => true
  | _ => false
  end.










(** The identities of the tracks of the streams handed over by
    [getUserMedia] during a run. *)
Fixpoint granted (evs : list (Env * Event)) : list nat :=
  match evs with
  | [] => []
  | (_, MicrophoneGranted stream) :: rest =>
      (map trackId stream ++ granted rest)%list
  | _ :: rest => granted rest
  end.

Definition mic_ids (s : State) : list nat :=
  match micStreamRef s with
  | Some stream => map trackId stream
  | None => []
  end.

(** A message has nothing to play: no inline data, an empty string, or no
    output context to play it on. *)
Definition nothing_to_play (m : LiveServerMessage) (s : State) : Prop :=
  base64Audio_of m = Returned None
  \/ (exists b64, base64Audio_of m = Returned (Some b64)
                  /\ truthy b64 = false)
  \/ (outputAudioCtxRef s = None /\ exists a, base64Audio_of m = Returned a).

(** Transcript fragments of one role, each with the clocks of its
    arrival. *)
Definition fragment_events (r : Role) (fragments : list (Env * string))
    : list (Env * Event) :=
  map (fun x => (fst x, Message (fragment_message r (snd x)))) fragments.

(** The fragments one after the other. *)
Definition joined (fragments : list (Env * string)) : string :=
  fold_right (fun x acc => String.append (snd x) acc) ""%string fragments.

Definition other (r : Role) : Role :=
  match r with
  | user => professor
  | professor => user
  end.

(** The accumulators as the flush finds them: the fragments that the
    message itself carries are appended first. *)
Definition input_after (m : LiveServerMessage) (s : State) : string :=
  match inputTranscription_of m with
  | Some t => append_text (currentInputTransRef s) t
  | None => currentInputTransRef s
  end.

Definition output_after (m : LiveServerMessage) (s : State) : string :=
  match outputTranscription_of m with
  | Some t => append_text (currentOutputTransRef s) t
  | None => currentOutputTransRef s
  end.

End Derived.

(* ================================================================== *)
(** * The capture path of [onopen] (App.tsx 87-99)

    [scriptProcessor.onaudioprocess] turns every frame of the microphone
    into a blob and hands it to [sessionPromise.then(...)]: the callback
    runs when the promise is fulfilled, at once if it already is, and
    sends the blob if the session is not null.  [createBlobFromPCM]
    belongs to [./utils/audio] and is a parameter here. *)

Module Capture.
Import App.

Section WithEncoder.

Variables Frame MediaBlob : Type.
Variable createBlobFromPCM : Frame -> MediaBlob.

(** The promise returned by [ai.live.connect], with the callbacks that
    wait on it in the order of their registration. *)
Inductive SessionPromise :=
| Waiting (callbacks : list MediaBlob)
| Fulfilled (session : option Session)
| Rejected.

(** [unhandledRejections] counts the promises returned by
    [sessionPromise.then(...)] that were rejected: [then] is called with
    no rejection handler and its result is dropped, so each of them is
    reported as an unhandled rejection. *)
Record Pipeline := {
  sessionPromise : SessionPromise;
  sentRealtimeInput : list (nat * MediaBlob);
  unhandledRejections : nat
}.

Definition opened : Pipeline :=
  {| sessionPromise := Waiting []; sentRealtimeInput := [];
     unhandledRejections := 0 |}.

Inductive CaptureEvent :=
| AudioProcess (inputData : Frame)
| Fulfil (session : option Session)
| Reject.

(** [if (session) session.sendRealtimeInput({ media: pcmBlob })];
    [sendRealtimeInput] is taken not to throw. *)
Definition send (session : option Session) (blobs : list MediaBlob)
    (sent : list (nat * MediaBlob)) : list (nat * MediaBlob) :=
  match session with
  | Some sess => sent ++ map (fun b => (sessionId sess, b)) blobs
  | None => sent
  end.

(** [onaudioprocess] registers one callback with [then]; a callback runs
    when the promise is fulfilled.  When the promise is rejected no
    callback runs, and the promise that [then] returned for each of them
    is rejected in turn: for the callbacks that wait at the rejection, and
    for every [then] called after it.  A promise is settled once. *)
Definition capture_step (e : CaptureEvent) (p : Pipeline) : Pipeline :=
  match e, sessionPromise p with
  | AudioProcess inputData, Waiting callbacks =>
      {| sessionPromise := Waiting (callbacks ++ [createBlobFromPCM inputData]);
         sentRealtimeInput := sentRealtimeInput p;
         unhandledRejections := unhandledRejections p |}
  | AudioProcess inputData, Fulfilled session =>
      {| sessionPromise := Fulfilled session;
         sentRealtimeInput :=
           send session [createBlobFromPCM inputData] (sentRealtimeInput p);
         unhandledRejections := unhandledRejections p |}
  | AudioProcess _, Rejected =>
      {| sessionPromise := Rejected;
         sentRealtimeInput := sentRealtimeInput p;
         unhandledRejections := S (unhandledRejections p) |}
  | Fulfil session, Waiting callbacks =>
      {| sessionPromise := Fulfilled session;
         sentRealtimeInput := send session callbacks (sentRealtimeInput p);
         unhandledRejections := unhandledRejections p |}
  | Reject, Waiting callbacks =>
      {| sessionPromise := Rejected;
         sentRealtimeInput := sentRealtimeInput p;
         unhandledRejections :=
           (unhandledRejections p + List.length callbacks)%nat |}
  | Fulfil _, _ => p
  | Reject, _ => p
  end.

Definition capture_run (evs : list CaptureEvent) (p : Pipeline) : Pipeline :=
  fold_left (fun q e => capture_step e q) evs p.

(** The frames of a run, in capture order. *)
Fixpoint frames_of (evs : list CaptureEvent) : list Frame :=
  match evs with
  | [] => []
  | AudioProcess inputData :: rest => inputData :: frames_of rest
  | _ :: rest => frames_of rest
  end.

(** The promise is settled by this run, and first with a session. *)
Fixpoint first_settled_with (sess : Session) (evs : list CaptureEvent)
    : bool :=
  match evs with
  | [] => false
  | AudioProcess _ :: rest => first_settled_with sess rest
  | Fulfil (Some s') :: _ => Nat.eqb (sessionId s') (sessionId sess)
  | Fulfil None :: _ => false
  | Reject :: _ => false
  end.

End WithEncoder.

End Capture.

(* ================================================================== *)
(** * Properties of the codec *)

Module PCMFacts.
Import PCM.

Lemma Z_of_byte_of_Z (z : Z) : Z_of_byte (byte_of_Z z) = z mod 256.
Proof.
  unfold Z_of_byte, byte_of_Z.
  assert (Hr : 0 <= z mod 256 < 256) by (apply Z.mod_pos_bound; lia).
  destruct (Byte.of_N (Z.to_N (z mod 256))) as [b|] eqn:E.
  - apply Byte.to_of_N in E. rewrite E. apply Z2N.id. lia.
  - apply Byte.of_N_None_iff in E. lia.
Qed.

Lemma lor_shiftl_8 (a b : Z) :
  0 <= a < 256 -> Z.lor a (Z.shiftl b 8) = a + 256 * b.
Proof.
  intros Ha.
  assert (Hland : Z.land a (Z.shiftl b 8) = 0).
  { apply Z.bits_inj'. intros n Hn. rewrite Z.land_spec, Z.bits_0.
    destruct (Z.ltb_spec n 8).
    - rewrite Z.shiftl_spec_low by lia. apply andb_false_r.
    - assert (Hbit : Z.testbit a n = false).
      { destruct (Z.eq_dec a 0) as [->|Hnz]; [apply Z.bits_0|].
        apply Z.bits_above_log2; [lia|].
        assert (Z.log2 a < 8) by (apply Z.log2_lt_pow2; lia). lia. }
      rewrite Hbit. reflexivity. }
  rewrite <- Z.lxor_lor by exact Hland.
  rewrite <- Z.add_nocarry_lxor by exact Hland.
  rewrite Z.shiftl_mul_pow2 by lia. change (2 ^ 8) with 256. lia.
Qed.

Lemma int16_le_roundtrip (v : Z) :
  -32768 <= v < 32768 ->
  forall lo hi, int16_to_le v = [lo; hi] -> int16_of_le lo hi = v.
Proof.
  intros Hv lo hi E. injection E as <- <-.
  unfold int16_of_le. rewrite !Z_of_byte_of_Z.
  rewrite Z.shiftr_div_pow2 by lia. change (2 ^ 8) with 256.
  assert (Hlo : 0 <= v mod 256 < 256) by (apply Z.mod_pos_bound; lia).
  assert (Hhi : 0 <= (v / 256) mod 256 < 256) by (apply Z.mod_pos_bound; lia).
  cbv zeta. rewrite lor_shiftl_8 by exact Hlo.
  pose proof (Z.div_mod v 256 ltac:(lia)) as Hd.
  pose proof (Z.div_mod (v / 256) 256 ltac:(lia)) as Hd'.
  assert (Hq : -128 <= v / 256 < 128).
  { split.
    - apply Z.div_le_lower_bound; lia.
    - apply Z.div_lt_upper_bound; lia. }
  destruct (Z.ltb_spec (v mod 256 + 256 * ((v / 256) mod 256)) 32768); nia.
Qed.

Lemma clamp_in_range (s : Q) : in_range s -> (clamp s (-1) 1 == s)%Q.
Proof.
  intros [Hlo Hhi]. unfold clamp.
  rewrite (Q.min_r 1 s) by exact Hhi.
  apply Q.max_r. exact Hlo.
Qed.

(** The quantised value: nearest integer to [32767 * s], inside the signed
    16-bit range. *)
Lemma to_int16_spec (s : Q) :
  in_range s ->
  -32767 <= to_int16 s <= 32767 /\
  (inject_Z (to_int16 s) - (1 # 2) <= 32767 * s
   /\ 32767 * s < inject_Z (to_int16 s) + (1 # 2))%Q.
Proof.
  intros Hs. pose proof (clamp_in_range s Hs) as Hc. destruct Hs as [Hlo Hhi].
  unfold to_int16, round.
  set (x := (clamp s (-1) 1 * 32767 + (1 # 2))%Q).
  assert (Hx : (x == 32767 * s + (1 # 2))%Q) by (unfold x; rewrite Hc; ring).
  clearbody x.
  pose proof (Qfloor_le x) as Hfl.
  pose proof (Qlt_floor x) as Hfu.
  rewrite inject_Z_plus in Hfu. change (inject_Z 1) with 1%Q in Hfu.
  assert (Hb : (inject_Z (-32768) < inject_Z (Qfloor x)
                /\ inject_Z (Qfloor x) < inject_Z 32768)%Q).
  { change (inject_Z (-32768)) with (-32768)%Q.
    change (inject_Z 32768) with 32768%Q. split; lra. }
  destruct Hb as [Hb1 Hb2].
  rewrite <- Zlt_Qlt in Hb1, Hb2.
  split; [lia|]. split; lra.
Qed.

Lemma sample_roundtrip (s : Q) (lo hi : byte) :
  in_range s ->
  int16_to_le (to_int16 s) = [lo; hi] ->
  close_to (3 # 65536) s (from_int16 (int16_of_le lo hi)).
Proof.
  intros Hs E.
  destruct (to_int16_spec s Hs) as [Hr [Hl Hu]].
  rewrite (int16_le_roundtrip (to_int16 s)) by (lia || exact E).
  unfold close_to, from_int16, Qdiv. destruct Hs as [Hlo Hhi].
  change (/ 32768)%Q with (1 # 32768)%Q.
  apply Qabs_Qle_condition. split; lra.
Qed.

Lemma decode_encode_samples (frame : AudioFrame) :
  Forall in_range frame ->
  Forall2 (close_to (3 # 65536)) frame
    (decode (flat_map (fun s => int16_to_le (to_int16 s)) frame)).
Proof.
  induction 1 as [|s frame Hs _ IH]; [constructor|].
  cbn [flat_map int16_to_le app decode]. constructor; [|exact IH].
  apply sample_roundtrip; [exact Hs|reflexivity].
Qed.

(** C7, as the claim states it, fails: this sample, inside [-1, 1], is
    encoded as 28671 and decoded as 28671/32768, which is 5/131072
    (1.25/32768) away from it, more than 1/32768. *)
Lemma C7_error_exceeds_one_step :
  in_range off_grid_sample
  /\ encode [off_grid_sample] = Some [xff; x6f]
  /\ (exists r, decode [xff; x6f] = [r]
               /\ (r == 28671 # 32768)%Q
               /\ (Qabs (r - off_grid_sample) == 5 # 131072)%Q
               /\ ~ close_to (1 # 32768) off_grid_sample r).
Proof.
  split; [split; vm_compute; discriminate|]. split; [reflexivity|].
  eexists. split; [reflexivity|]. split; [reflexivity|].
  split; [reflexivity|]. unfold close_to. intros H.
  vm_compute in H. apply H. reflexivity.
Qed.

(** C7, amended.  Every frame with at least one sample, all samples in
    [-1, 1], is encoded, and decoding the chunk gives as many samples, each
    within 3/65536 (one and a half steps of 1/32768) of the original. *)
Theorem C7_decode_encode_within_three_half_steps (frame : AudioFrame) :
  frame <> [] ->
  Forall in_range frame ->
  exists chunk,
    encode frame = Some chunk
    /\ Forall2 (close_to (3 # 65536)) frame (decode chunk).
Proof.
  intros Hne Hall.
  exists (flat_map (fun s => int16_to_le (to_int16 s)) frame). split.
  - destruct frame; [contradiction|reflexivity].
  - apply decode_encode_samples. exact Hall.
Qed.

Lemma C7_decode_encode_within_three_half_steps_witness :
  [off_grid_sample; 1; -1; 0]%Q <> []
  /\ Forall in_range [off_grid_sample; 1; -1; 0]%Q
  /\ exists chunk,
       encode [off_grid_sample; 1; -1; 0]%Q = Some chunk
       /\ Forall2 (close_to (3 # 65536)) [off_grid_sample; 1; -1; 0]%Q
            (decode chunk).
Proof.
  assert (H1 : [off_grid_sample; 1; -1; 0]%Q <> []) by discriminate.
  assert (H2 : Forall in_range [off_grid_sample; 1; -1; 0]%Q)
    by (repeat constructor; vm_compute; discriminate).
  split; [exact H1|]. split; [exact H2|].
  exact (C7_decode_encode_within_three_half_steps _ H1 H2).
Defined.

End PCMFacts.

(* ================================================================== *)
(** * Properties of the component *)

Module AppFacts.
Import App Derived.
Local Open Scope js_scope.


(** ** Running monadic code *)

Lemma run_bind {A B} (c : Js A) (k : A -> Js B) s a s1 l1 r s2 l2 :
  c s = (Returned a, s1, l1) ->
  k a s1 = (r, s2, l2) ->
  bind c k s = (r, s2, l1 ++ l2).
Proof. intros Hc Hk. unfold bind. rewrite Hc, Hk. reflexivity. Qed.

Lemma bind_eq {A B} (c : Js A) (k : A -> Js B) (s : State) :
  bind c k s
  = match c s with
    | (Returned a, s', log) =>
        match k a s' with
        | (r, s'', log') => (r, s'', log ++ log')
        end
    | (Thrown e, s', log) => (Thrown e, s', log)
    end.
Proof. reflexivity. Qed.

(** ** stopAllAudio *)

Lemma source_stop_ended (source : AudioBufferSourceNode) (s : State) :
  ended source = true ->
  source_stop source s = (Thrown InvalidStateError, s, []).
Proof. intros H. unfold source_stop. rewrite H. reflexivity. Qed.

Lemma swallow_stop_run (source : AudioBufferSourceNode) (s : State) :
  swallow_stop source s = (Returned tt, s, stop_calls [source]).
Proof.
  unfold swallow_stop, try_catch, source_stop, stop_calls. cbn [filter].
  destruct (ended source); reflexivity.
Qed.

Lemma forEach_swallow_stop (l : list AudioBufferSourceNode) (s : State) :
  forEach swallow_stop l s = (Returned tt, s, stop_calls l).
Proof.
  induction l as [|source l IH]; [reflexivity|].
  cbn [forEach].
  rewrite (run_bind _ _ _ _ _ _ _ _ _ (swallow_stop_run source s) IH).
  unfold stop_calls. cbn [filter].
  destruct (ended source); reflexivity.
Qed.

Lemma stopAllAudio_run (s : State) :
  stopAllAudio s
  = (Returned tt, reset_state s,
     stop_calls (audioSourcesRef s) ++ [SourcesCleared]).
Proof.
  unfold stopAllAudio.
  erewrite run_bind;
    [ | reflexivity
      | erewrite run_bind;
          [ | apply forEach_swallow_stop | reflexivity ]; reflexivity ].
  reflexivity.
Qed.

(** ** onmessage *)

Ltac run_transcriptions m :=
  cbv beta iota delta [handle_transcriptions bind when gets modify
                       setMessages ret exec fst snd];
  destruct (inputTranscription_of m), (outputTranscription_of m),
    (turnComplete_of m); cbv beta iota;
  repeat match goal with
         | |- context [truthy ?x] => destruct (truthy x); cbv beta iota
         end.

Lemma handle_transcriptions_run env m s :
  handle_transcriptions env m s = (Returned tt, transcribed env m s, []).
Proof.
  unfold transcribed. run_transcriptions m.
  all: reflexivity.
Qed.

(** The transcription lines touch the transcript refs and the update queue
    of [messages], nothing else. *)
Lemma transcribed_frame env m s :
  sessionState (transcribed env m s) = sessionState s
  /\ messages (transcribed env m s) = messages s
  /\ isProfessorSpeaking (transcribed env m s) = isProfessorSpeaking s
  /\ errorMessage (transcribed env m s) = errorMessage s
  /\ sessionRef (transcribed env m s) = sessionRef s
  /\ outputAudioCtxRef (transcribed env m s) = outputAudioCtxRef s
  /\ micStreamRef (transcribed env m s) = micStreamRef s
  /\ nextStartTimeRef (transcribed env m s) = nextStartTimeRef s
  /\ audioSourcesRef (transcribed env m s) = audioSourcesRef s
  /\ nextNodeId (transcribed env m s) = nextNodeId s.
Proof.
  unfold transcribed. run_transcriptions m.
  all: repeat split; reflexivity.
Qed.

Lemma onmessage_audio_run env m audioBuffer s :
  carries_audio m ->
  outputAudioCtxRef s <> None ->
  let s1 := transcribed env m s in
  let call := SourceStart (nextNodeId s) (start_time env s)
                (duration audioBuffer) in
  onmessage env m audioBuffer s
  = if interrupted_of m
    then (Returned tt, reset_state (enqueued env audioBuffer s1),
          call :: stop_calls (audioSourcesRef (enqueued env audioBuffer s1))
               ++ [SourcesCleared])
    else (Returned tt, enqueued env audioBuffer s1, [call]).
Proof.
  intros (b64 & Hb & Ht) Hctx s1 call.
  destruct (transcribed_frame env m s)
    as (_ & _ & _ & _ & _ & Hc & _ & Hn & Hs & Hi).
  fold s1 in Hc, Hn, Hs, Hi.
  unfold onmessage, onmessage_begin.
  unfold bind at 1 2. rewrite handle_transcriptions_run. fold s1.
  unfold bind at 1, lift. rewrite Hb.
  unfold bind at 1, gets.
  destruct (outputAudioCtxRef s1) as [ctx|] eqn:E; [|congruence].
  rewrite Ht.
  unfold onmessage_resume, handle_interrupted, when, bind at 1 2 3 4.
  unfold setIsProfessorSpeaking, modify, ret, createBufferSource, gets,
    source_start, emit, bind.
  cbn [pendingMessage].
  destruct (interrupted_of m).
  - rewrite stopAllAudio_run.
    unfold call, start_time, enqueued, new_source, reset_state, start_time.
    cbn [audioSourcesRef nextStartTimeRef nextNodeId with_audioSourcesRef
         with_nextStartTimeRef with_nextNodeId with_isProfessorSpeaking].
    rewrite Hn, Hi. reflexivity.
  - unfold call, start_time, enqueued, new_source, start_time.
    cbn [audioSourcesRef nextStartTimeRef nextNodeId with_audioSourcesRef
         with_nextStartTimeRef with_nextNodeId with_isProfessorSpeaking].
    rewrite Hn, Hi. reflexivity.
Qed.

Lemma carries_audio_message (b64 : string) :
  truthy b64 = true -> carries_audio (audio_message b64).
Proof. intros H. exists b64. split; [reflexivity|exact H]. Qed.

(** ** Claims about the reset *)

(** C8. [stopAllAudio] returns normally in every state, whatever the set
    of in-flight sources holds: a [stop()] that throws (a source that has
    already ended) is caught where it is thrown, the other sources are
    still stopped, the set is cleared, and neither the error message nor
    the session state is touched. *)
Theorem C8_stopAllAudio_never_fails (s : State) :
  outcome stopAllAudio s = Returned tt
  /\ (forall source, In source (audioSourcesRef s) ->
      ended source = true ->
      outcome (source_stop source) s = Thrown InvalidStateError)
  /\ (forall source, In source (audioSourcesRef s) ->
      ended source = false ->
      In (SourceStop (nodeId source)) (emitted stopAllAudio s))
  /\ audioSourcesRef (exec stopAllAudio s) = []
  /\ errorMessage (exec stopAllAudio s) = errorMessage s
  /\ sessionState (exec stopAllAudio s) = sessionState s.
Proof.
  unfold outcome, exec, emitted. rewrite stopAllAudio_run. cbn [fst snd].
  split; [reflexivity|]. split; [|split; [|repeat split]].
  - intros source _ He. rewrite source_stop_ended by exact He. reflexivity.
  - intros source Hin He. apply in_or_app. left. unfold stop_calls.
    apply in_map_iff. exists source. split; [reflexivity|].
    apply filter_In. split; [exact Hin|]. rewrite He. reflexivity.
Qed.

(** C10. [stopAllAudio] is idempotent: after one call the set of in-flight
    sources is empty, the cursor is 0 and the speaking flag is false, and
    a second call returns that very state (and stops nothing). *)
Theorem C10_stopAllAudio_idempotent (s : State) :
  let s1 := exec stopAllAudio s in
  audioSourcesRef s1 = []
  /\ nextStartTimeRef s1 = 0%Q
  /\ isProfessorSpeaking s1 = false
  /\ exec stopAllAudio s1 = s1
  /\ emitted stopAllAudio s1 = [SourcesCleared].
Proof.
  unfold exec, emitted. rewrite stopAllAudio_run. cbn [fst snd].
  rewrite stopAllAudio_run. cbn [fst snd].
  repeat split; reflexivity.
Qed.

(** C4, as the claim states it, fails for a handler that is waiting for
    the decoder when the reset runs.  A message with audio arrives while a
    source is playing and its handler waits for the decoder; the
    interruption arrives and [stopAllAudio] runs; then the decoder
    answers, at device time 7/2.  The enqueue that follows the reset
    passes 0 to [source.start]: neither the device time nor the cursor
    from before the reset, and its source is in flight after the
    interruption. *)
Lemma C4_suspended_enqueue_starts_at_zero :
  (nextStartTimeRef playing == 3)%Q
  /\ trace decode_after_reset playing
     = [SourceStop 0; SourcesCleared; SourceStart 1 0 (duration half_second)]
  /\ audioSourcesRef (run decode_after_reset playing)
     = [{| nodeId := 1; buffer := half_second; ended := false |}]
  /\ ~ (0 == currentTime (at_time (7 # 2) 2500))%Q.
Proof.
  split; [reflexivity|]. split; [reflexivity|]. split; [reflexivity|].
  intros H. vm_compute in H. discriminate H.
Qed.

(** ** Claims about one inbound message *)

(** C1, as the claim states it, fails: for a message that carries audio and
    the interrupted flag, the source of that message is started first and
    the reset comes after it (and stops that very source). *)
Lemma C1_reset_follows_enqueue :
  carries_audio barge_in_message
  /\ interrupted_of barge_in_message = true
  /\ emitted (onmessage (at_time (5 # 2) 2000) barge_in_message half_second)
       connected
     = [SourceStart 0 (5 # 2) (duration half_second); SourceStop 0;
        SourcesCleared]
  /\ reset_comes_first
       (emitted (onmessage (at_time (5 # 2) 2000) barge_in_message
                   half_second) connected) = false.
Proof.
  split; [exists some_audio; split; reflexivity|].
  repeat split; reflexivity.
Qed.

(** C1, amended.  A message that carries audio and the interrupted flag is
    handled in the handler's fixed order: its source is created, started at
    [max(cursor, device time)] and added to the in-flight set; then
    [stopAllAudio] runs in the same handler and stops every source in
    flight, that one included.  When the handler ends the in-flight set is
    empty, the cursor is 0 and the speaking flag is false. *)
Theorem C1_interrupted_audio_is_enqueued_then_reset
    (env : Env) (m : LiveServerMessage) (audioBuffer : AudioBuffer)
    (s : State) :
  carries_audio m ->
  interrupted_of m = true ->
  outputAudioCtxRef s <> None ->
  let s' := exec (onmessage env m audioBuffer) s in
  let stops :=
    stop_calls (set_add (new_source audioBuffer s) (audioSourcesRef s)) in
  outcome (onmessage env m audioBuffer) s = Returned tt
  /\ emitted (onmessage env m audioBuffer) s
     = SourceStart (nextNodeId s)
         (Qmax (nextStartTimeRef s) (currentTime env))
         (duration audioBuffer)
       :: stops ++ [SourcesCleared]
  /\ ((forall x, In x (audioSourcesRef s) -> nodeId x <> nextNodeId s) ->
      In (SourceStop (nextNodeId s)) stops)
  /\ audioSourcesRef s' = []
  /\ nextStartTimeRef s' = 0%Q
  /\ isProfessorSpeaking s' = false.
Proof.
  intros Ha Hi Hctx s' stops. unfold s', outcome, exec, emitted.
  rewrite onmessage_audio_run by assumption. rewrite Hi. cbn [fst snd].
  destruct (transcribed_frame env m s)
    as (_ & _ & _ & _ & _ & _ & _ & Hn & Hs & Hid).
  split; [reflexivity|]. split; [|split; [|repeat split]].
  - unfold enqueued, new_source, start_time.
    cbn [audioSourcesRef with_audioSourcesRef]. rewrite Hs, Hid.
    reflexivity.
  - intros Hfresh. unfold stops, stop_calls.
    apply in_map_iff. exists (new_source audioBuffer s).
    split; [reflexivity|]. apply filter_In. split; [|reflexivity].
    unfold set_add.
    destruct (existsb (same_node (new_source audioBuffer s))
                (audioSourcesRef s)) eqn:E.
    + apply existsb_exists in E. destruct E as (x & Hx & Hsame).
      unfold same_node in Hsame. apply Nat.eqb_eq in Hsame.
      exfalso. apply (Hfresh x Hx). symmetry. exact Hsame.
    + apply in_or_app. right. left. reflexivity.
Qed.

Lemma C1_interrupted_audio_is_enqueued_then_reset_witness :
  carries_audio barge_in_message
  /\ interrupted_of barge_in_message = true
  /\ outputAudioCtxRef playing <> None
  /\ emitted (onmessage (at_time 3 2400) barge_in_message half_second)
       playing
     = SourceStart (nextNodeId playing)
         (Qmax (nextStartTimeRef playing) (currentTime (at_time 3 2400)))
         (duration half_second)
       :: stop_calls (set_add (new_source half_second playing)
                        (audioSourcesRef playing))
          ++ [SourcesCleared]
  /\ audioSourcesRef
       (exec (onmessage (at_time 3 2400) barge_in_message half_second)
          playing) = [].
Proof.
  assert (H1 : carries_audio barge_in_message)
    by (exists some_audio; split; reflexivity).
  assert (H2 : interrupted_of barge_in_message = true) by reflexivity.
  assert (H3 : outputAudioCtxRef playing <> None)
    by (vm_compute; discriminate).
  split; [exact H1|]. split; [exact H2|]. split; [exact H3|].
  pose proof (C1_interrupted_audio_is_enqueued_then_reset
                (at_time 3 2400) barge_in_message half_second playing
                H1 H2 H3) as (_ & Hlog & _ & Hset & _).
  split; [exact Hlog|exact Hset].
Defined.

Lemma handle_interrupted_run m s :
  handle_interrupted m s
  = if interrupted_of m
    then (Returned tt, reset_state s,
          stop_calls (audioSourcesRef s) ++ [SourcesCleared])
    else (Returned tt, s, []).
Proof.
  unfold handle_interrupted, when.
  destruct (interrupted_of m); [apply stopAllAudio_run|reflexivity].
Qed.

Lemma onmessage_resume_run p audioBuffer s :
  let call := SourceStart (nextNodeId s) (nextStartTimeRef s)
                (duration audioBuffer) in
  let s2 := appended audioBuffer s in
  onmessage_resume p audioBuffer s
  = if interrupted_of (pendingMessage p)
    then (Returned tt, reset_state s2,
          call :: stop_calls (audioSourcesRef s2) ++ [SourcesCleared])
    else (Returned tt, s2, [call]).
Proof.
  intros call s2. unfold onmessage_resume.
  unfold bind. cbv beta iota delta [createBufferSource gets source_start
    emit modify]. rewrite handle_interrupted_run.
  destruct (interrupted_of (pendingMessage p)); reflexivity.
Qed.

Lemma onmessage_begin_cases env m s :
  let s1 := transcribed env m s in
  (exists e, onmessage_begin env m s = (Thrown e, s1, []))
  \/ (exists p,
        onmessage_begin env m s
        = (Returned (Some p),
           with_nextStartTimeRef (start_time env s1)
             (with_isProfessorSpeaking true s1), []))
  \/ onmessage_begin env m s = (Returned None, s1, [])
  \/ onmessage_begin env m s
     = (Returned None, reset_state s1,
        stop_calls (audioSourcesRef s1) ++ [SourcesCleared]).
Proof.
  intros s1.
  assert (Hno : (handle_interrupted m ;; ret (@None Pending)) s1
                = (Returned None, s1, [])
                \/ (handle_interrupted m ;; ret (@None Pending)) s1
                   = (Returned None, reset_state s1,
                      stop_calls (audioSourcesRef s1) ++ [SourcesCleared])).
  { rewrite bind_eq, handle_interrupted_run.
    destruct (interrupted_of m); cbv beta iota delta [ret];
      [right|left]; rewrite ?app_nil_r; reflexivity. }
  remember (onmessage_begin env m s) as x eqn:Ex.
  unfold onmessage_begin in Ex.
  rewrite bind_eq, handle_transcriptions_run in Ex.
  cbv beta iota in Ex. fold s1 in Ex.
  rewrite bind_eq in Ex. unfold lift in Ex.
  destruct (base64Audio_of m) as [a|e];
    [|left; exists e; subst x; reflexivity].
  cbv beta iota in Ex. rewrite bind_eq in Ex. unfold gets in Ex.
  cbv beta iota in Ex.
  destruct a as [b64|];
    [destruct (outputAudioCtxRef s1) as [ctx|];
     [destruct (truthy b64)|]|destruct (outputAudioCtxRef s1)].
  2-5: right; right; destruct Hno as [H|H]; rewrite H in Ex; subst x;
       [left|right]; reflexivity.
  right. left. subst x. eexists. reflexivity.
Qed.

(** ** Session callbacks *)

Lemma forEach_track_stop (l : MediaStream) (s : State) :
  forEach track_stop l s
  = (Returned tt,
     match l with
     | [] => s
     | _ => with_micStreamRef
              (option_map (map (stop_in l)) (micStreamRef s)) s
     end,
     map (fun t => TrackStop (trackId t)) l).
Proof.
  revert s. induction l as [|t l IH]; intros s; [reflexivity|].
  cbn [forEach]. erewrite run_bind; [|reflexivity|apply IH].
  cbn [app map]. f_equal. f_equal.
  assert (Hmap : option_map (map (stop_in (t :: l))) (micStreamRef s)
                 = option_map (map (stop_in l))
                     (option_map
                        (map (fun x =>
                                if Nat.eqb (trackId x) (trackId t)
                                then stop_track x else x))
                        (micStreamRef s))).
  { destruct (micStreamRef s) as [stream|]; [|reflexivity].
    cbn [option_map]. f_equal. rewrite map_map. apply map_ext.
    intros x. unfold stop_in. cbn [existsb].
    destruct (Nat.eqb (trackId x) (trackId t)); cbn [orb trackId stop_track].
    - destruct (existsb _ l); reflexivity.
    - reflexivity. }
  destruct l as [|t' l'].
  - cbn [exec modify fst snd]. destruct s. cbn. f_equal.
    destruct micStreamRef0 as [stream|]; [|reflexivity].
    cbn [option_map]. f_equal. apply map_ext. intros x.
    unfold stop_in. cbn [existsb]. rewrite orb_false_r. reflexivity.
  - rewrite Hmap. destruct s. reflexivity.
Qed.

Lemma stop_in_self (stream : MediaStream) :
  Forall (fun t => readyState t = trackEnded) (map (stop_in stream) stream).
Proof.
  apply Forall_forall. intros t Hin. apply in_map_iff in Hin.
  destruct Hin as (x & <- & Hx). unfold stop_in.
  assert (E : existsb (fun t => Nat.eqb (trackId x) (trackId t)) stream
              = true).
  { apply existsb_exists. exists x. split; [exact Hx|apply Nat.eqb_refl]. }
  rewrite E. reflexivity.
Qed.

Lemma handleStopSession_run (s : State) :
  handleStopSession s
  = (Returned tt,
     with_sessionState DISCONNECTED
       (reset_state
          (with_micStreamRef (stopped (micStreamRef s))
             (with_sessionRef None s))),
     close_calls (sessionRef s) ++ track_stops (micStreamRef s)
       ++ stop_calls (audioSourcesRef s) ++ [SourcesCleared]).
Proof.
  unfold handleStopSession.
  rewrite bind_eq. unfold gets at 1. cbv beta iota.
  rewrite bind_eq.
  assert (Hclose :
    match sessionRef s with
    | Some sess => emit (SessionClose (sessionId sess)) ;;
                   modify (with_sessionRef None)
    | None => ret tt
    end s
    = (Returned tt,
       match sessionRef s with Some _ => with_sessionRef None s | None => s end,
       close_calls (sessionRef s))).
  { destruct (sessionRef s); reflexivity. }
  rewrite Hclose. cbv beta iota. clear Hclose.
  set (s1 := match sessionRef s with
             | Some _ => with_sessionRef None s
             | None => s
             end).
  assert (Hmic : micStreamRef s1 = micStreamRef s)
    by (unfold s1; destruct (sessionRef s); reflexivity).
  assert (Hsrc : audioSourcesRef s1 = audioSourcesRef s)
    by (unfold s1; destruct (sessionRef s); reflexivity).
  rewrite bind_eq. unfold gets at 1. cbv beta iota.
  rewrite bind_eq.
  assert (Htracks :
    match micStreamRef s1 with
    | Some stream => forEach track_stop stream
    | None => ret tt
    end s1
    = (Returned tt, with_micStreamRef (stopped (micStreamRef s1)) s1,
       track_stops (micStreamRef s1))).
  { destruct (micStreamRef s1) as [stream|] eqn:E.
    - rewrite forEach_track_stop, E. destruct stream; [|reflexivity].
      destruct s1; cbn in E; subst; reflexivity.
    - destruct s1; cbn in E; subst; reflexivity. }
  rewrite Htracks. cbv beta iota. clear Htracks.
  rewrite bind_eq, stopAllAudio_run. cbv beta iota.
  rewrite Hmic.
  cbn [audioSourcesRef with_micStreamRef]. rewrite Hsrc.
  unfold setSessionState, modify.
  cbn [app]. rewrite app_nil_r.
  f_equal. f_equal. f_equal. f_equal.
  unfold s1. destruct (sessionRef s) eqn:E; [reflexivity|].
  destruct s; cbn in E; subst; reflexivity.
Qed.

(** C6. From the connected state, [handleStopSession] ends in DISCONNECTED:
    [stop()] has been called on every track of the microphone stream and
    every track is ended, the set of in-flight sources is empty and the
    playback cursor is back at 0. *)
Theorem C6_stop_from_connected (s : State) :
  sessionState s = CONNECTED ->
  let s' := exec handleStopSession s in
  outcome handleStopSession s = Returned tt
  /\ sessionState s' = DISCONNECTED
  /\ (forall stream, micStreamRef s = Some stream ->
      exists stream',
        micStreamRef s' = Some stream'
        /\ map trackId stream' = map trackId stream
        /\ Forall (fun t => readyState t = trackEnded) stream'
        /\ forall t, In t stream ->
             In (TrackStop (trackId t)) (emitted handleStopSession s))
  /\ audioSourcesRef s' = []
  /\ nextStartTimeRef s' = 0%Q
  /\ sessionRef s' = None.
Proof.
  intros _ s'. unfold s', outcome, exec, emitted.
  rewrite handleStopSession_run. cbn [fst snd].
  split; [reflexivity|]. split; [reflexivity|].
  split; [|repeat split].
  intros stream E. rewrite E. cbn [stopped option_map].
  exists (map (stop_in stream) stream).
  split; [reflexivity|]. split; [|split].
  - rewrite map_map. apply map_ext. intros x. unfold stop_in.
    destruct (existsb _ stream); reflexivity.
  - apply stop_in_self.
  - intros t Hin. apply in_or_app. right. apply in_or_app. left.
    cbn [track_stops]. apply in_map_iff. exists t. split; [reflexivity|].
    exact Hin.
Qed.

Lemma C6_stop_from_connected_witness :
  sessionState playing = CONNECTED
  /\ sessionState (exec handleStopSession playing) = DISCONNECTED
  /\ micStreamRef (exec handleStopSession playing)
     = Some [{| trackId := 0; readyState := trackEnded |}]
  /\ audioSourcesRef playing <> []
  /\ audioSourcesRef (exec handleStopSession playing) = []
  /\ nextStartTimeRef (exec handleStopSession playing) = 0%Q.
Proof.
  assert (H : sessionState playing = CONNECTED) by reflexivity.
  pose proof (C6_stop_from_connected playing H)
    as (_ & Hstate & _ & Hset & Hcursor & _).
  split; [exact H|]. split; [exact Hstate|]. split; [reflexivity|].
  split; [vm_compute; discriminate|]. split; [exact Hset|exact Hcursor].
Defined.

Lemma stop_calls_only_stop (l : list AudioBufferSourceNode) (id : nat) :
  ~ In (TrackStop id) (stop_calls l ++ [SourcesCleared]).
Proof.
  intros H. apply in_app_or in H. destruct H as [H|[H|[]]]; [|discriminate].
  unfold stop_calls in H. apply in_map_iff in H.
  destruct H as (x & Hx & _). discriminate.
Qed.

(** Only the stop button stops a microphone track. *)
Lemma only_stop_button_stops_tracks env e s id :
  In (TrackStop id) (emitted (dispatch env e) s) -> e = ClickStop.
Proof.
  destruct e; cbn [dispatch]; try (intros []); try reflexivity.
  - (* Message *)
    unfold emitted. rewrite bind_eq.
    destruct (onmessage_begin_cases env m s)
      as [(e & ->)|[(p & ->)|[->| ->]]]; cbn [snd ret app];
      try (intros []).
    rewrite app_nil_r. intros H.
    exfalso. exact (stop_calls_only_stop _ _ H).
  - (* Decoded *)
    unfold emitted. rewrite onmessage_resume_run.
    destruct (interrupted_of (pendingMessage p)); cbn [snd].
    + intros [H|H]; [discriminate|].
      exfalso. exact (stop_calls_only_stop _ _ H).
    + intros [H|[]]. discriminate.
  - (* Ended *)
    unfold emitted, onended. rewrite bind_eq. cbv beta iota delta [modify].
    rewrite bind_eq. cbv beta iota delta [gets when].
    destruct (Nat.eqb _ 0); intros [].
Qed.

(** C9. When the session's close event fires, [onclose] sets the session
    state to DISCONNECTED and does nothing else: no track of the microphone
    stream is stopped, no source is stopped, and the in-flight set, the
    playback cursor, the speaking flag, both transcript accumulators and
    the message log (with its pending updates) are as before.  Of all the
    events of the component, only the stop button stops a microphone
    track. *)
Theorem C9_close_changes_only_session_state (s : State) :
  let s' := exec onclose s in
  outcome onclose s = Returned tt
  /\ emitted onclose s = []
  /\ sessionState s' = DISCONNECTED
  /\ s' = with_sessionState DISCONNECTED s
  /\ micStreamRef s' = micStreamRef s
  /\ audioSourcesRef s' = audioSourcesRef s
  /\ nextStartTimeRef s' = nextStartTimeRef s
  /\ isProfessorSpeaking s' = isProfessorSpeaking s
  /\ currentInputTransRef s' = currentInputTransRef s
  /\ currentOutputTransRef s' = currentOutputTransRef s
  /\ messages s' = messages s
  /\ messagesQueue s' = messagesQueue s
  /\ (forall env e s0 id,
        In (TrackStop id) (emitted (dispatch env e) s0) -> e = ClickStop).
Proof.
  cbv zeta. repeat split; try reflexivity.
  intros env e s0 id. apply only_stop_button_stops_tracks.
Qed.

(** C2, as the claim states it, fails: a transport error in a connected
    session with a source in flight moves the session to ERROR and leaves
    the microphone track live, the source in the in-flight set and the
    cursor where it was; no call reaches the microphone or the audio
    device. *)
Lemma C2_transport_error_releases_nothing :
  sessionState playing = CONNECTED
  /\ sessionState (exec onerror playing) = ERROR
  /\ micStreamRef (exec onerror playing)
     = Some [{| trackId := 0; readyState := live |}]
  /\ audioSourcesRef (exec onerror playing)
     = [{| nodeId := 0; buffer := half_second; ended := false |}]
  /\ (nextStartTimeRef (exec onerror playing) == 3)%Q
  /\ emitted onerror playing = [].
Proof. repeat split; reflexivity. Qed.

(** C2, amended.  When a transport error fires, [onerror] moves the session
    to ERROR and sets the error message to a fixed text, which differs from
    the text that a failed setup falls back to; that is all it does.  The
    microphone stream, the set of in-flight sources, the playback cursor
    and the speaking flag are left as they were. *)
Theorem C2_transport_error_sets_error_state (s : State) :
  let s' := exec onerror s in
  outcome onerror s = Returned tt
  /\ sessionState s' = ERROR
  /\ errorMessage s' = Some transportErrorText
  /\ transportErrorText <> setupFallbackText
  /\ (forall name s0,
        errorMessage
          (exec (handleStartSession_catch
                   {| errorName := name; errorMessageText := None |}) s0)
        = Some setupFallbackText)
  /\ emitted onerror s = []
  /\ micStreamRef s' = micStreamRef s
  /\ audioSourcesRef s' = audioSourcesRef s
  /\ nextStartTimeRef s' = nextStartTimeRef s
  /\ isProfessorSpeaking s' = isProfessorSpeaking s
  /\ sessionRef s' = sessionRef s.
Proof.
  cbv zeta. repeat split; try reflexivity.
  discriminate.
Qed.

(** ** The playback schedule *)

Lemma duration_nonneg (b : AudioBuffer) : (0 <= duration b)%Q.
Proof.
  unfold duration, Qle. cbn [Qnum Qden]. rewrite Z.mul_1_r.
  cbn. apply N2Z.is_nonneg.
Qed.



(** ** Transcript flush *)

(** C5 on the specification's own example.  Both accumulators are
    non-empty when the turn-complete message arrives; the handler queues
    the two updaters and sets both accumulators to the empty string before
    it returns.  React calls the queued updaters at the next render, after
    the accumulators were cleared: both entries of the message log have
    the empty string as their text, not ["Hello world"] and ["Hi there"],
    and carry the time of the render.  Whatever React does with the first
    updater, the professor's entry has the empty string as its text. *)
Theorem C5_turn_complete_loses_transcripts :
  let s' := exec (dispatch (at_time 3 2400) (Message turn_complete_message))
              both_spoke in
  currentInputTransRef both_spoke = "Hello world"%string
  /\ currentOutputTransRef both_spoke = "Hi there"%string
  /\ messageLog (at_time 3 2401) both_spoke = []
  /\ currentInputTransRef s' = ""%string
  /\ currentOutputTransRef s' = ""%string
  /\ messageLog (at_time 3 2401) s'
     = [{| role := user; text := ""%string; timestamp := 2401 |};
        {| role := professor; text := ""%string; timestamp := 2401 |}]
  /\ forall env env' : Env,
       exists userText userTime,
         messageLog env'
           (exec (dispatch env (Message turn_complete_message)) both_spoke)
         = [{| role := user; text := userText; timestamp := userTime |};
            {| role := professor; text := ""%string;
               timestamp := dateNow env' |}].
Proof.
  cbv zeta. repeat split; try reflexivity.
  intros env env'. destruct env as [t ms [|]].
  - exists "Hello world"%string, ms. reflexivity.
  - exists ""%string, (dateNow env'). reflexivity.
Qed.

(** What the flush does in general, from a state with no update pending:
    the entries come in the order user, professor; a role whose accumulator
    is empty gets none; the first entry has the accumulator as its text
    only when React called its updater at the dispatch; every other entry
    has its text read after the accumulators have been cleared. *)
Lemma turn_complete_message_log env env' m s :
  inputTranscription_of m = None ->
  outputTranscription_of m = None ->
  turnComplete_of m = true ->
  messagesQueue s = [] ->
  let s' := transcribed env m s in
  let first (r : Role) (acc : string) :=
    if reactIdle env
    then {| role := r; text := acc; timestamp := dateNow env |}
    else {| role := r; text := ""%string; timestamp := dateNow env' |} in
  currentInputTransRef s' = ""%string
  /\ currentOutputTransRef s' = ""%string
  /\ messageLog env' s'
     = messages s
       ++ match truthy (currentInputTransRef s),
                truthy (currentOutputTransRef s) with
          | true, true =>
              [first user (currentInputTransRef s);
               {| role := professor; text := ""%string;
                  timestamp := dateNow env' |}]
          | true, false => [first user (currentInputTransRef s)]
          | false, true => [first professor (currentOutputTransRef s)]
          | false, false => []
          end.
Proof.
  intros Hi Ho Ht Hq. unfold transcribed, messageLog, render.
  cbv beta iota delta [handle_transcriptions bind when gets modify
                       setMessages ret exec fst snd].
  rewrite Hi, Ho, Ht. cbv beta iota.
  destruct s; cbn in Hq; subst.
  cbn [currentInputTransRef currentOutputTransRef messages].
  destruct (reactIdle env);
  destruct (truthy currentInputTransRef0); cbv beta iota;
    cbn [currentInputTransRef currentOutputTransRef messages
         with_messages];
    destruct (truthy currentOutputTransRef0);
    cbn; rewrite ?app_nil_r, <- ?app_assoc; repeat split; reflexivity.
Qed.

End AppFacts.

(* ================================================================== *)
(** * Further properties of the component *)

Module AppMore.
Import App Derived AppFacts.
Local Open Scope js_scope.

(** ** Invariants through handler code *)

Lemma exec_bind {A B} (c : Js A) (k : A -> Js B) (s : State) :
  exec (bind c k) s
  = match outcome c s with
    | Returned a => exec (k a) (exec c s)
    | Thrown _ => exec c s
    end.
Proof.
  unfold exec, outcome, bind.
  destruct (c s) as [[[a|e] s'] log]; cbn [fst snd]; [|reflexivity].
  destruct (k a s') as [[r s''] log']. reflexivity.
Qed.

Lemma emitted_bind {A B} (c : Js A) (k : A -> Js B) (s : State) :
  emitted (bind c k) s
  = match outcome c s with
    | Returned a => emitted c s ++ emitted (k a) (exec c s)
    | Thrown _ => emitted c s
    end.
Proof.
  unfold exec, outcome, emitted, bind.
  destruct (c s) as [[[a|e] s'] log]; cbn [fst snd]; [|reflexivity].
  destruct (k a s') as [[r s''] log']. reflexivity.
Qed.

Section Preserves.

Variable P : State -> Prop.

Lemma preserves_bind {A B} (c : Js A) (k : A -> Js B) :
  preserves P c -> (forall a, preserves P (k a)) -> preserves P (bind c k).
Proof.
  intros Hc Hk s Hs. rewrite exec_bind.
  destruct (outcome c s); [apply Hk|]; apply Hc; exact Hs.
Qed.

Lemma preserves_gets_bind {A B} (f : State -> A) (k : A -> Js B) :
  (forall s, P s -> P (exec (k (f s)) s)) -> preserves P (bind (gets f) k).
Proof. intros H s Hs. rewrite exec_bind. apply H. exact Hs. Qed.

Lemma preserves_modify (f : State -> State) :
  (forall s, P s -> P (f s)) -> preserves P (modify f).
Proof. intros H s Hs. apply H. exact Hs. Qed.

Lemma preserves_ret {A} (a : A) : preserves P (ret a).
Proof. intros s Hs. exact Hs. Qed.

Lemma preserves_throw {A} (e : JsError) : preserves P (@throw A e).
Proof. intros s Hs. exact Hs. Qed.

Lemma preserves_lift {A} (r : Result A) : preserves P (lift r).
Proof. intros s Hs. exact Hs. Qed.

Lemma preserves_gets {A} (f : State -> A) : preserves P (gets f).
Proof. intros s Hs. exact Hs. Qed.

Lemma preserves_emit (e : Effect) : preserves P (emit e).
Proof. intros s Hs. exact Hs. Qed.

Lemma preserves_when (b : bool) (c : Js unit) :
  preserves P c -> preserves P (when b c).
Proof. intros H. destruct b; [exact H|apply preserves_ret]. Qed.

Lemma preserves_try_catch {A} (c : Js A) (h : JsError -> Js A) :
  preserves P c -> (forall e, preserves P (h e)) ->
  preserves P (try_catch c h).
Proof.
  intros Hc Hh s Hs. specialize (Hc s Hs). unfold exec, try_catch in *.
  destruct (c s) as [[[a|e] s'] log]; cbn [fst snd] in *; [exact Hc|].
  specialize (Hh e s' Hc). unfold exec in Hh.
  destruct (h e s') as [[r s''] log']. exact Hh.
Qed.

Lemma preserves_forEach {A} (f : A -> Js unit) (l : list A) :
  (forall x, preserves P (f x)) -> preserves P (forEach f l).
Proof.
  intros H. induction l as [|x l IH]; [apply preserves_ret|].
  cbn [forEach]. apply preserves_bind; [apply H|intros _; exact IH].
Qed.

Lemma preserves_source_stop (source : AudioBufferSourceNode) :
  preserves P (source_stop source).
Proof.
  unfold source_stop. destruct (ended source);
    [apply preserves_throw|apply preserves_emit].
Qed.

Lemma preserves_stopAllAudio :
  (forall s, P s -> P (reset_state s)) -> preserves P stopAllAudio.
Proof.
  intros H s Hs. unfold exec. rewrite stopAllAudio_run. apply H. exact Hs.
Qed.

Lemma preserves_createBufferSource (audioBuffer : AudioBuffer) :
  (forall s, P s -> P (with_nextNodeId (S (nextNodeId s)) s)) ->
  preserves P (createBufferSource audioBuffer).
Proof. intros H s Hs. apply H. exact Hs. Qed.

End Preserves.

(** Structural steps; what is left are the assignments. *)
Ltac keep_with extra :=
  repeat first
    [ extra
    | apply preserves_ret | apply preserves_throw | apply preserves_lift
    | apply preserves_gets | apply preserves_emit
    | apply preserves_source_stop
    | match goal with
      | |- preserves _ stopAllAudio => apply preserves_stopAllAudio
      end
    | apply preserves_bind; [|intros ?]
    | apply preserves_when
    | apply preserves_forEach; intros ?
    | apply preserves_try_catch; [|intros ?]
    | match goal with
      | |- preserves _ (match ?x with _ => _ end) => destruct x
      | |- preserves _ (if ?x then _ else _) => destruct x
      end ].

Ltac keep := keep_with fail.

Ltac assignments tac :=
  repeat first
    [ apply preserves_modify; intros ? ?; tac
    | apply preserves_createBufferSource; intros ? ?; tac
    | match goal with
      | |- forall s : State, _ => intros ? ?; tac
      end ].

Ltac unfold_handlers :=
  cbn [dispatch];
  unfold handleStartSession_begin, handleStartSession_stream,
    handleStartSession_session, handleStartSession_catch, onopen, onerror,
    onclose, handleStopSession, onmessage_begin, onmessage_resume, onended,
    playback_finished, render, track_stop, handle_interrupted,
    handle_transcriptions, setMessages, source_start, setSessionState,
    setErrorMessage, setIsProfessorSpeaking.

(** ** Transcript accumulators *)

(** X12.  Only an inbound message changes the transcript accumulators: the
    buttons, the session callbacks, the decoder's answer, the device
    events and a render leave both as they are.  In particular neither a
    stop nor a restart clears what was accumulated in an unfinished
    turn. *)
Theorem accumulators_change_only_on_messages
    (env : Env) (e : Event) (s : State) :
  is_message e = false ->
  currentInputTransRef (exec (dispatch env e) s) = currentInputTransRef s
  /\ currentOutputTransRef (exec (dispatch env e) s)
     = currentOutputTransRef s.
Proof.
  intros He.
  assert (H : preserves
                (fun s' => currentInputTransRef s' = currentInputTransRef s
                           /\ currentOutputTransRef s'
                              = currentOutputTransRef s)
                (dispatch env e)).
  { destruct e; try discriminate; unfold_handlers; keep;
      assignments ltac:(assumption). }
  apply H. split; reflexivity.
Qed.

Lemma accumulators_change_only_on_messages_witness :
  is_message ClickStop = false
  /\ currentInputTransRef both_spoke = "Hello world"%string
  /\ currentInputTransRef
       (exec (dispatch (at_time 3 2400) ClickStop) both_spoke)
     = currentInputTransRef both_spoke
  /\ currentOutputTransRef
       (exec (dispatch (at_time 3 2400) ClickStop) both_spoke)
     = currentOutputTransRef both_spoke.
Proof.
  assert (H : is_message ClickStop = false) by reflexivity.
  split; [exact H|]. split; [reflexivity|].
  exact (accumulators_change_only_on_messages (at_time 3 2400) ClickStop
           both_spoke H).
Defined.

(** ** The playback cursor *)

Lemma run_invariant (P : State -> Prop) :
  (forall env e, preserves P (dispatch env e)) ->
  forall evs s, P s -> P (run evs s).
Proof.
  intros H evs. induction evs as [|[env e] rest IH]; intros s Hs;
    [exact Hs|].
  cbn [run]. apply IH. apply H. exact Hs.
Qed.

Ltac cursor_step :=
  cbn [nextStartTimeRef with_nextStartTimeRef with_sessionState
       with_messages with_isProfessorSpeaking with_errorMessage
       with_sessionRef with_audioContexts with_micStreamRef
       with_audioSourcesRef with_currentInputTransRef
       with_currentOutputTransRef with_nextNodeId reset_state] in *;
  first
    [ assumption
    | apply Qle_refl
    | eapply Qle_trans; [eassumption|apply Q.le_max_l]
    | match goal with
      | |- (_ <= _ + duration ?b)%Q =>
          pose proof (duration_nonneg b); lra
      end ].

(** X2.  The playback cursor is never negative, in whatever order the events
    of the component run; and an event that does not run [stopAllAudio]
    never moves it back. *)
Theorem cursor_never_negative_never_back :
  (forall evs, (0 <= nextStartTimeRef (run evs initial))%Q)
  /\ (forall env e s,
        resets e = false ->
        (nextStartTimeRef s <= nextStartTimeRef (exec (dispatch env e) s))%Q).
Proof.
  split.
  - intros evs.
    apply (run_invariant (fun s => (0 <= nextStartTimeRef s)%Q));
      [|apply Qle_refl].
    intros env e. destruct e; unfold_handlers; keep;
      assignments ltac:(cursor_step).
  - intros env e s He.
    assert (H : preserves
                  (fun s' => (nextStartTimeRef s <= nextStartTimeRef s')%Q)
                  (dispatch env e)).
    { destruct e; try discriminate; cbn [resets] in He; unfold_handlers;
        rewrite ?He; keep; assignments ltac:(cursor_step). }
    apply H. apply Qle_refl.
Qed.

(** ** The speaking flag *)

Ltac speak_step :=
  unfold speaking_covers in *;
  cbn [audioSourcesRef isProfessorSpeaking with_nextStartTimeRef
       with_sessionState with_messages with_isProfessorSpeaking
       with_errorMessage with_sessionRef with_audioContexts
       with_micStreamRef with_audioSourcesRef with_currentInputTransRef
       with_currentOutputTransRef with_nextNodeId reset_state] in *;
  first
    [ assumption
    | intros _; reflexivity
    | let H := fresh in intros H; exfalso; apply H; reflexivity ].

Lemma speaking_covers_transcribed env m s :
  speaking_covers s -> speaking_covers (transcribed env m s).
Proof.
  destruct (transcribed_frame env m s)
    as (_ & _ & Hf & _ & _ & _ & _ & _ & Hs & _).
  unfold speaking_covers. rewrite Hf, Hs. exact (fun H => H).
Qed.

Lemma speaking_covers_onended source :
  preserves speaking_covers (onended source).
Proof.
  unfold onended. apply preserves_bind; [|intros _].
  - apply preserves_modify. intros s H. unfold speaking_covers in *.
    cbn [audioSourcesRef isProfessorSpeaking with_audioSourcesRef].
    intros Hne. apply H. intros E. rewrite E in Hne. apply Hne. reflexivity.
  - apply preserves_gets_bind. intros s H.
    destruct (audioSourcesRef s) as [|x l] eqn:E; cbn [List.length Nat.eqb when].
    + unfold exec, setIsProfessorSpeaking, modify. cbn [fst snd].
      unfold speaking_covers. cbn [audioSourcesRef with_isProfessorSpeaking].
      intros Hne. exfalso. apply Hne. exact E.
    + exact H.
Qed.

Lemma speaking_covers_playback_finished node :
  preserves speaking_covers (playback_finished node).
Proof.
  apply preserves_modify. intros s H. unfold speaking_covers in *.
  cbn [audioSourcesRef isProfessorSpeaking with_audioSourcesRef].
  intros Hne. apply H. intros E. rewrite E in Hne. apply Hne. reflexivity.
Qed.

Lemma speaking_covers_resume p audioBuffer s :
  isProfessorSpeaking s = true ->
  speaking_covers (exec (onmessage_resume p audioBuffer) s).
Proof.
  intros H. unfold exec. rewrite onmessage_resume_run.
  destruct (interrupted_of (pendingMessage p)); cbn [fst snd].
  - speak_step.
  - unfold speaking_covers, appended.
    cbn [isProfessorSpeaking with_audioSourcesRef with_nextStartTimeRef
         with_nextNodeId]. intros _. exact H.
Qed.

(** X3.  While a source is in flight the speaking flag is up: every handler
    keeps this, and so does a message handled from its arrival to its end,
    with one exception, the second half of [onmessage] when it runs on its
    own after the [await]; that half keeps it when the flag is still up. *)
Theorem speaking_flag_covers_playback (s : State) :
  speaking_covers s ->
  (forall env e,
      (forall p audioBuffer, e <> Decoded p audioBuffer) ->
      speaking_covers (exec (dispatch env e) s))
  /\ (forall env m audioBuffer,
        speaking_covers (exec (onmessage env m audioBuffer) s))
  /\ (forall p audioBuffer,
        isProfessorSpeaking s = true ->
        speaking_covers (exec (onmessage_resume p audioBuffer) s)).
Proof.
  intros Hs. split; [|split].
  - intros env e He.
    assert (H : preserves speaking_covers (dispatch env e)).
    { destruct e;
        try (exfalso; eapply He; reflexivity);
        try (cbn [dispatch]; apply speaking_covers_onended);
        try (cbn [dispatch]; apply speaking_covers_playback_finished).
      all: unfold_handlers; keep; assignments ltac:(speak_step). }
    apply H. exact Hs.
  - intros env m audioBuffer.
    pose proof (speaking_covers_transcribed env m s Hs) as Ht.
    unfold exec, onmessage. rewrite bind_eq.
    destruct (onmessage_begin_cases env m s)
      as [(e & ->)|[(p & ->)|[->| ->]]]; cbv beta iota; cbn [fst snd ret];
      try exact Ht.
    + pose proof (speaking_covers_resume p audioBuffer
                    (with_nextStartTimeRef
                       (start_time env (transcribed env m s))
                       (with_isProfessorSpeaking true (transcribed env m s)))
                    eq_refl) as Hr.
      unfold exec in Hr.
      destruct (onmessage_resume p audioBuffer _) as [[r s'] log].
      exact Hr.
    + speak_step.
  - intros p audioBuffer. apply speaking_covers_resume.
Qed.

Lemma speaking_flag_covers_playback_witness :
  speaking_covers playing
  /\ audioSourcesRef playing <> []
  /\ speaking_covers
       (exec (onmessage (at_time 3 2400) (audio_message some_audio)
                half_second) playing)
  /\ speaking_covers
       (exec (dispatch (at_time 3 2400)
                (Ended {| nodeId := 0; buffer := half_second;
                          ended := true |})) playing).
Proof.
  assert (H : speaking_covers playing) by (intros _; reflexivity).
  destruct (speaking_flag_covers_playback playing H) as (H1 & H2 & _).
  split; [exact H|]. split; [vm_compute; discriminate|].
  split; [apply H2|]. apply H1. discriminate.
Defined.

(** X4.  The exception is real.  With one source [x] in flight, a message with
    audio arrives, [x] plays to its end while that message is being
    decoded, and the decoder answers: the new source is in flight and the
    speaking flag is down. *)
Theorem speaking_flag_down_while_playing
    (s : State) (x : AudioBufferSourceNode) (m : LiveServerMessage)
    (p : Pending) (audioBuffer : AudioBuffer) (env1 env2 env3 : Env) :
  audioSourcesRef s = [x] ->
  carries_audio m ->
  interrupted_of m = false ->
  interrupted_of (pendingMessage p) = false ->
  outputAudioCtxRef s <> None ->
  let s' := run [(env1, Message m); (env2, Ended x);
                 (env3, Decoded p audioBuffer)] s in
  audioSourcesRef s' <> [] /\ isProfessorSpeaking s' = false.
Proof.
  intros Hx Ha Hi Hp Hctx. cbn [run dispatch].
  destruct (transcribed_frame env1 m s)
    as (_ & _ & _ & _ & _ & Hc & _ & _ & Hsrc & _).
  assert (Hb : exec (onmessage_begin env1 m ;; ret tt) s
               = with_nextStartTimeRef
                   (start_time env1 (transcribed env1 m s))
                   (with_isProfessorSpeaking true (transcribed env1 m s))).
  { unfold exec. rewrite bind_eq.
    destruct Ha as (b64 & Hb & Ht).
    remember (onmessage_begin env1 m s) as r eqn:Er.
    unfold onmessage_begin in Er.
    rewrite bind_eq, handle_transcriptions_run in Er. cbv beta iota in Er.
    rewrite bind_eq in Er. unfold lift in Er. rewrite Hb in Er.
    cbv beta iota in Er. rewrite bind_eq in Er. unfold gets in Er.
    cbv beta iota in Er.
    destruct (outputAudioCtxRef (transcribed env1 m s)) eqn:E;
      [|congruence].
    rewrite Ht in Er. subst r. reflexivity. }
  rewrite Hb. clear Hb.
  set (s1 := with_nextStartTimeRef _ _).
  assert (Hs1 : audioSourcesRef s1 = [x]) by (unfold s1; cbn; rewrite Hsrc; exact Hx).
  assert (Hs2 : audioSourcesRef (exec (onended x) s1) = []
                /\ isProfessorSpeaking (exec (onended x) s1) = false).
  { unfold onended. rewrite exec_bind. cbn [outcome modify fst].
    rewrite exec_bind. cbn [outcome gets fst exec modify snd].
    cbn [audioSourcesRef with_audioSourcesRef]. rewrite Hs1.
    unfold set_delete, same_node. cbn [filter]. rewrite Nat.eqb_refl.
    cbn [negb List.length Nat.eqb when]. split; reflexivity. }
  destruct Hs2 as [Hset Hflag].
  set (s2 := exec (onended x) s1) in *.
  clearbody s2. unfold exec. rewrite onmessage_resume_run, Hp.
  cbn [fst snd].
  unfold appended.
  cbn [audioSourcesRef isProfessorSpeaking with_audioSourcesRef
       with_nextStartTimeRef with_nextNodeId].
  rewrite Hset, Hflag. split; [discriminate|reflexivity].
Qed.

Lemma speaking_flag_down_while_playing_witness :
  audioSourcesRef playing
  = [{| nodeId := 0; buffer := half_second; ended := false |}]
  /\ carries_audio (audio_message some_audio)
  /\ interrupted_of (audio_message some_audio) = false
  /\ outputAudioCtxRef playing <> None
  /\ isProfessorSpeaking
       (run [(at_time 3 2400, Message (audio_message some_audio));
             (at_time 3 2450,
              Ended {| nodeId := 0; buffer := half_second; ended := false |});
             (at_time 3 2500,
              Decoded {| pendingMessage := audio_message some_audio;
                         pendingAudio := some_audio |} half_second)]
          playing) = false.
Proof.
  assert (H1 : audioSourcesRef playing
               = [{| nodeId := 0; buffer := half_second; ended := false |}])
    by reflexivity.
  assert (H2 : carries_audio (audio_message some_audio))
    by (apply carries_audio_message; reflexivity).
  assert (H3 : interrupted_of (audio_message some_audio) = false)
    by reflexivity.
  assert (H4 : outputAudioCtxRef playing <> None)
    by (vm_compute; discriminate).
  split; [exact H1|]. split; [exact H2|]. split; [exact H3|].
  split; [exact H4|].
  exact (proj2 (speaking_flag_down_while_playing playing _
                  (audio_message some_audio)
                  {| pendingMessage := audio_message some_audio;
                     pendingAudio := some_audio |}
                  half_second (at_time 3 2400) (at_time 3 2450)
                  (at_time 3 2500) H1 H2 H3 H3 H4)).
Defined.

(** ** Edge cases of onmessage *)

(** The first half of the handler, case by case. *)
Lemma onmessage_begin_run env m s :
  let s1 := transcribed env m s in
  let finished :=
    if interrupted_of m
    then (Returned (@None Pending), reset_state s1,
          stop_calls (audioSourcesRef s1) ++ [SourcesCleared])
    else (Returned None, s1, []) in
  onmessage_begin env m s
  = match base64Audio_of m, outputAudioCtxRef s1 with
    | Thrown e, _ => (Thrown e, s1, [])
    | Returned (Some b64), Some _ =>
        if truthy b64
        then (Returned (Some {| pendingMessage := m; pendingAudio := b64 |}),
              with_nextStartTimeRef (start_time env s1)
                (with_isProfessorSpeaking true s1), [])
        else finished
    | Returned _, _ => finished
    end.
Proof.
  intros s1 finished.
  assert (Hno : (handle_interrupted m ;; ret (@None Pending)) s1 = finished).
  { rewrite bind_eq, handle_interrupted_run. unfold finished.
    destruct (interrupted_of m); cbv beta iota delta [ret];
      rewrite ?app_nil_r; reflexivity. }
  remember (onmessage_begin env m s) as x eqn:Ex.
  unfold onmessage_begin in Ex.
  rewrite bind_eq, handle_transcriptions_run in Ex.
  cbv beta iota in Ex. fold s1 in Ex.
  rewrite bind_eq in Ex. unfold lift in Ex.
  destruct (base64Audio_of m) as [a|e]; [|subst x; reflexivity].
  cbv beta iota in Ex. rewrite bind_eq in Ex. unfold gets in Ex.
  cbv beta iota in Ex.
  destruct a as [b64|];
    [destruct (outputAudioCtxRef s1) as [ctx|];
     [destruct (truthy b64)|]|destruct (outputAudioCtxRef s1)].
  2-5: rewrite Hno in Ex; subst x; destruct finished as [[r s'] l];
       reflexivity.
  subst x. reflexivity.
Qed.

(** ** The schedule across the await *)











(** C4, amended.  After [stopAllAudio] the set of in-flight sources is
    empty, the speaking flag is false and the cursor is 0.  A message with
    audio that arrives after the reset sets the cursor to the device time
    of its arrival and waits for the decoder; if the decoder answers
    before anything else moves the cursor, its source is started at that
    device time, whatever the cursor was before the reset.  A handler that
    was already waiting for the decoder when the reset ran starts its
    source at 0, the cursor it finds. *)
Theorem C4_reset_then_enqueue
    (s : State) (env env' : Env) (m : LiveServerMessage)
    (waiting : Pending) (audioBuffer : AudioBuffer) :
  (0 <= currentTime env)%Q ->
  carries_audio m ->
  outputAudioCtxRef s <> None ->
  let s1 := exec stopAllAudio s in
  let s2 := exec (dispatch env (Message m)) s1 in
  audioSourcesRef s1 = []
  /\ isProfessorSpeaking s1 = false
  /\ nextStartTimeRef s1 = 0%Q
  /\ (exists p,
        outcome (onmessage_begin env m) s1 = Returned (Some p)
        /\ pendingMessage p = m
        /\ (nextStartTimeRef s2 == currentTime env)%Q
        /\ exists t rest,
             emitted (dispatch env' (Decoded p audioBuffer)) s2
             = SourceStart (nextNodeId s) t (duration audioBuffer) :: rest
             /\ (t == currentTime env)%Q)
  /\ (exists rest,
        emitted (dispatch env' (Decoded waiting audioBuffer)) s1
        = SourceStart (nextNodeId s) 0 (duration audioBuffer) :: rest).
Proof.
  intros Hnow (b64 & Hb & Ht) Hctx. cbv zeta. unfold exec, emitted, outcome.
  rewrite stopAllAudio_run. cbn [fst snd dispatch].
  split; [reflexivity|]. split; [reflexivity|]. split; [reflexivity|].
  destruct (transcribed_frame env m (reset_state s))
    as (_ & _ & _ & _ & _ & Hc & _ & Hn & _ & Hid).
  split.
  - rewrite bind_eq, onmessage_begin_run, Hb, Hc.
    change (outputAudioCtxRef (reset_state s)) with (outputAudioCtxRef s).
    destruct (outputAudioCtxRef s) as [ctx|]; [|contradiction].
    rewrite Ht. cbv beta iota delta [ret]. cbn [fst snd].
    assert (Hstart : (start_time env (transcribed env m (reset_state s))
                      == currentTime env)%Q).
    { unfold start_time. rewrite Hn. apply Q.max_r. exact Hnow. }
    eexists. split; [reflexivity|]. split; [reflexivity|].
    split; [exact Hstart|].
    rewrite onmessage_resume_run.
    cbn [nextStartTimeRef nextNodeId with_nextStartTimeRef
         with_isProfessorSpeaking pendingMessage].
    rewrite Hid. change (nextNodeId (reset_state s)) with (nextNodeId s).
    destruct (interrupted_of m); cbn [fst snd]; do 2 eexists;
      (split; [reflexivity|exact Hstart]).
  - rewrite onmessage_resume_run.
    destruct (interrupted_of (pendingMessage waiting)); cbn [fst snd];
      eexists; reflexivity.
Qed.

Lemma C4_reset_then_enqueue_witness :
  (0 <= currentTime (at_time 4 3000))%Q
  /\ carries_audio (audio_message some_audio)
  /\ outputAudioCtxRef playing <> None
  /\ nextStartTimeRef (exec stopAllAudio playing) = 0%Q
  /\ (nextStartTimeRef
        (exec (dispatch (at_time 4 3000) (Message (audio_message some_audio)))
           (exec stopAllAudio playing)) == 4)%Q
  /\ (exists rest,
        emitted (dispatch (at_time (9 # 2) 3500)
                   (Decoded waiting_audio half_second))
          (exec stopAllAudio playing)
        = SourceStart (nextNodeId playing) 0 (duration half_second) :: rest).
Proof.
  assert (H1 : (0 <= currentTime (at_time 4 3000))%Q)
    by (vm_compute; discriminate).
  assert (H2 : carries_audio (audio_message some_audio))
    by (apply carries_audio_message; reflexivity).
  assert (H3 : outputAudioCtxRef playing <> None)
    by (vm_compute; discriminate).
  split; [exact H1|]. split; [exact H2|]. split; [exact H3|].
  pose proof (C4_reset_then_enqueue playing (at_time 4 3000)
                (at_time (9 # 2) 3500) (audio_message some_audio)
                waiting_audio half_second H1 H2 H3) as H.
  cbv zeta in H. destruct H as (_ & _ & Hzero & (p & _ & _ & Hnow & _) & Hold).
  split; [exact Hzero|]. split; [exact Hnow|exact Hold].
Defined.



(** X7.  A model turn without [parts] makes the handler throw at
    [parts[0]]: the transcript lines have run, nothing is scheduled, and
    the interrupted flag of that message is not looked at, so the in-flight
    set, the cursor and the speaking flag stay as they were. *)
Theorem missing_parts_skips_the_interruption
    (env : Env) (m : LiveServerMessage) (c : LiveServerContent)
    (turn : Content) (audioBuffer : AudioBuffer) (s : State) :
  serverContent m = Some c ->
  modelTurn c = Some turn ->
  parts turn = None ->
  let s' := exec (onmessage env m audioBuffer) s in
  outcome (onmessage env m audioBuffer) s = Thrown TypeError
  /\ emitted (onmessage env m audioBuffer) s = []
  /\ s' = transcribed env m s
  /\ audioSourcesRef s' = audioSourcesRef s
  /\ nextStartTimeRef s' = nextStartTimeRef s
  /\ isProfessorSpeaking s' = isProfessorSpeaking s.
Proof.
  intros Hc Ht Hp s'.
  assert (Hb : base64Audio_of m = Thrown TypeError).
  { unfold base64Audio_of. rewrite Hc, Ht, Hp. reflexivity. }
  assert (Hrun : onmessage env m audioBuffer s
                 = (Thrown TypeError, transcribed env m s, [])).
  { unfold onmessage. rewrite bind_eq, onmessage_begin_run, Hb.
    reflexivity. }
  unfold s', outcome, emitted, exec. rewrite Hrun. cbn [fst snd].
  destruct (transcribed_frame env m s)
    as (_ & _ & Hf & _ & _ & _ & _ & Hn & Hs & _).
  repeat split; assumption.
Qed.

Lemma missing_parts_skips_the_interruption_witness :
  serverContent {| serverContent := Some turn_without_parts |}
  = Some turn_without_parts
  /\ modelTurn turn_without_parts = Some {| parts := None |}
  /\ parts {| parts := None |} = None
  /\ interrupted_of {| serverContent := Some turn_without_parts |} = true
  /\ audioSourcesRef playing <> []
  /\ audioSourcesRef
       (exec (onmessage (at_time 3 2400)
                {| serverContent := Some turn_without_parts |} half_second)
          playing)
     = audioSourcesRef playing.
Proof.
  split; [reflexivity|]. split; [reflexivity|]. split; [reflexivity|].
  split; [reflexivity|]. split; [vm_compute; discriminate|].
  exact (proj1 (proj2 (proj2 (proj2
           (missing_parts_skips_the_interruption (at_time 3 2400)
              {| serverContent := Some turn_without_parts |}
              turn_without_parts {| parts := None |}
              half_second playing eq_refl eq_refl eq_refl))))).
Defined.

(** X8.  A message with nothing to play (no inline data, an empty string, or no
    output context) is handled without waiting: the handler ends at once,
    no source is started, the speaking flag is not raised, and the state
    is that of the transcript lines followed by the interruption check. *)
Theorem nothing_to_play_ends_at_once
    (env : Env) (m : LiveServerMessage) (audioBuffer : AudioBuffer)
    (s : State) :
  nothing_to_play m s ->
  let s1 := transcribed env m s in
  outcome (onmessage_begin env m) s = Returned None
  /\ outcome (onmessage env m audioBuffer) s = Returned tt
  /\ exec (onmessage env m audioBuffer) s
     = (if interrupted_of m then reset_state s1 else s1)
  /\ emitted (onmessage env m audioBuffer) s
     = (if interrupted_of m
        then stop_calls (audioSourcesRef s) ++ [SourcesCleared]
        else [])
  /\ segments (emitted (onmessage env m audioBuffer) s) = []
  /\ (isProfessorSpeaking s = false ->
      isProfessorSpeaking (exec (onmessage env m audioBuffer) s) = false).
Proof.
  intros Hn s1.
  destruct (transcribed_frame env m s)
    as (_ & _ & Hf & _ & _ & Hc & _ & _ & Hs & _). fold s1 in Hf, Hc, Hs.
  assert (Hb : onmessage_begin env m s
               = if interrupted_of m
                 then (Returned None, reset_state s1,
                       stop_calls (audioSourcesRef s1) ++ [SourcesCleared])
                 else (Returned None, s1, [])).
  { rewrite onmessage_begin_run. fold s1.
    destruct Hn as [Hn|[(b64 & Hn & Ht)|(Hctx & a & Hn)]]; rewrite Hn.
    - destruct (outputAudioCtxRef s1); reflexivity.
    - rewrite Ht. destruct (outputAudioCtxRef s1); reflexivity.
    - rewrite Hc, Hctx. destruct a; reflexivity. }
  assert (Hrun : onmessage env m audioBuffer s
                 = if interrupted_of m
                   then (Returned tt, reset_state s1,
                         stop_calls (audioSourcesRef s) ++ [SourcesCleared])
                   else (Returned tt, s1, [])).
  { unfold onmessage. rewrite bind_eq, Hb, Hs.
    destruct (interrupted_of m); cbv beta iota delta [ret];
      rewrite ?app_nil_r; reflexivity. }
  unfold outcome, exec, emitted. rewrite Hb, Hrun.
  destruct (interrupted_of m); cbn [fst snd]; repeat split;
    try (intros H; rewrite Hf; exact H).
  clear. induction (audioSourcesRef s) as [|x l IH]; [reflexivity|].
  unfold stop_calls in *. cbn [filter]. destruct (ended x); cbn; exact IH.
Qed.

Lemma nothing_to_play_ends_at_once_witness :
  nothing_to_play (audio_message ""%string) playing
  /\ outcome (onmessage_begin (at_time 3 2400) (audio_message ""%string))
       playing = Returned None
  /\ exec (onmessage (at_time 3 2400) (audio_message ""%string) half_second)
       playing = playing.
Proof.
  assert (H : nothing_to_play (audio_message ""%string) playing).
  { right. left. exists ""%string. split; reflexivity. }
  split; [exact H|].
  destruct (nothing_to_play_ends_at_once (at_time 3 2400)
              (audio_message ""%string) half_second playing H)
    as (H1 & _ & H2 & _).
  split; [exact H1|]. rewrite H2. reflexivity.
Defined.

(** ** Natural completion and late continuations *)

(** X5.  When a source has played to its end, [onended] takes it, and nothing
    else, out of the in-flight set; the speaking flag goes down exactly
    when the set is then empty; the device is not called and the cursor
    stays where it was. *)
Theorem natural_completion (source : AudioBufferSourceNode) (s : State) :
  let s' := exec (onended source) s in
  outcome (onended source) s = Returned tt
  /\ emitted (onended source) s = []
  /\ (forall x, In x (audioSourcesRef s') <->
                In x (audioSourcesRef s) /\ nodeId x <> nodeId source)
  /\ (audioSourcesRef s' = [] -> isProfessorSpeaking s' = false)
  /\ (audioSourcesRef s' <> [] ->
      isProfessorSpeaking s' = isProfessorSpeaking s)
  /\ nextStartTimeRef s' = nextStartTimeRef s.
Proof.
  assert (Hrun : onended source s
                 = (Returned tt,
                    (if Nat.eqb (List.length
                                   (set_delete source (audioSourcesRef s))) 0
                     then with_isProfessorSpeaking false
                     else fun x => x)
                      (with_audioSourcesRef
                         (set_delete source (audioSourcesRef s)) s),
                    [])).
  { unfold onended. rewrite bind_eq. cbv beta iota delta [modify].
    rewrite bind_eq. cbv beta iota delta [gets].
    cbn [audioSourcesRef with_audioSourcesRef].
    destruct (Nat.eqb _ 0); reflexivity. }
  cbv zeta. unfold outcome, emitted, exec. rewrite Hrun. cbn [fst snd].
  split; [reflexivity|]. split; [reflexivity|].
  destruct (set_delete source (audioSourcesRef s)) as [|y l] eqn:E;
    cbn [List.length Nat.eqb audioSourcesRef isProfessorSpeaking
         nextStartTimeRef with_isProfessorSpeaking with_audioSourcesRef].
  - split; [|repeat split; try reflexivity].
    + intros x. rewrite <- E. unfold set_delete. rewrite filter_In.
      unfold same_node. rewrite negb_true_iff, Nat.eqb_neq.
      split; intros [H1 H2]; split; auto.
    + intros H. exfalso. apply H. reflexivity.
  - split; [|repeat split; try reflexivity].
    + intros x. rewrite <- E. unfold set_delete. rewrite filter_In.
      unfold same_node. rewrite negb_true_iff, Nat.eqb_neq.
      split; intros [H1 H2]; split; auto.
    + discriminate.
Qed.

(** X6.  Neither [stopAllAudio] nor [handleStopSession] cancels a handler that
    is waiting for the decoder.  When the decoder answers after the reset
    (or after the stop), the second half of that handler starts its source
    with the start time 0, the cursor it finds, and leaves it in the
    in-flight set with the speaking flag down. *)
Theorem suspended_handler_outlives_reset
    (p : Pending) (audioBuffer : AudioBuffer) (s : State) :
  interrupted_of (pendingMessage p) = false ->
  (let s1 := exec stopAllAudio s in
   emitted (onmessage_resume p audioBuffer) s1
   = [SourceStart (nextNodeId s) 0 (duration audioBuffer)]
   /\ audioSourcesRef (exec (onmessage_resume p audioBuffer) s1)
      = [new_source audioBuffer s]
   /\ isProfessorSpeaking (exec (onmessage_resume p audioBuffer) s1)
      = false)
  /\ (let s1 := exec handleStopSession s in
      emitted (onmessage_resume p audioBuffer) s1
      = [SourceStart (nextNodeId s) 0 (duration audioBuffer)]
      /\ audioSourcesRef (exec (onmessage_resume p audioBuffer) s1)
         = [new_source audioBuffer s]
      /\ isProfessorSpeaking (exec (onmessage_resume p audioBuffer) s1)
         = false
      /\ sessionState (exec (onmessage_resume p audioBuffer) s1)
         = DISCONNECTED).
Proof.
  intros Hp. cbv zeta. unfold exec, emitted.
  rewrite stopAllAudio_run, handleStopSession_run. cbn [fst snd].
  rewrite !onmessage_resume_run, Hp. cbn [fst snd].
  repeat split.
Qed.

Lemma suspended_handler_outlives_reset_witness :
  interrupted_of
    (pendingMessage {| pendingMessage := audio_message some_audio;
                       pendingAudio := some_audio |}) = false
  /\ audioSourcesRef (exec handleStopSession playing) = []
  /\ audioSourcesRef
       (exec (onmessage_resume
                {| pendingMessage := audio_message some_audio;
                   pendingAudio := some_audio |} half_second)
          (exec handleStopSession playing))
     = [new_source half_second playing].
Proof.
  assert (H : interrupted_of
                (pendingMessage {| pendingMessage := audio_message some_audio;
                                   pendingAudio := some_audio |}) = false)
    by reflexivity.
  split; [exact H|]. split; [reflexivity|].
  exact (proj1 (proj2 (proj2
           (suspended_handler_outlives_reset _ half_second playing H)))).
Defined.

(** ** Transcripts and the message log *)

Lemma string_app_assoc (a b c : string) :
  ((a ++ b) ++ c)%string = (a ++ (b ++ c))%string.
Proof. induction a as [|ch a IH]; cbn; [reflexivity|]. rewrite IH. reflexivity. Qed.

Lemma string_app_nil_r (a : string) : (a ++ "")%string = a.
Proof. induction a as [|ch a IH]; cbn; [reflexivity|]. rewrite IH. reflexivity. Qed.

Lemma fragment_step env r fragment s :
  dispatch env (Message (fragment_message r fragment)) s
  = (Returned tt,
     match r with
     | user =>
         with_currentInputTransRef
           (currentInputTransRef s ++ fragment)%string s
     | professor =>
         with_currentOutputTransRef
           (currentOutputTransRef s ++ fragment)%string s
     end, []).
Proof. destruct r; reflexivity. Qed.

(** X9.  Transcript fragments of one role accumulate in arrival order: after any
    number of fragment messages the accumulator of that role is what it
    was followed by the fragments in order; the other accumulator, the
    message log and its pending updates, and the playback state are
    untouched, and nothing is played. *)
Theorem fragments_accumulate_in_order
    (r : Role) (fragments : list (Env * string)) (s : State) :
  let s' := run (fragment_events r fragments) s in
  transcriptRef r s' = (transcriptRef r s ++ joined fragments)%string
  /\ transcriptRef (other r) s' = transcriptRef (other r) s
  /\ messages s' = messages s
  /\ messagesQueue s' = messagesQueue s
  /\ audioSourcesRef s' = audioSourcesRef s
  /\ nextStartTimeRef s' = nextStartTimeRef s
  /\ trace (fragment_events r fragments) s = [].
Proof.
  revert s. induction fragments as [|[env fragment] rest IH]; intros s.
  - cbn. rewrite string_app_nil_r. repeat split; reflexivity.
  - cbn [fragment_events map run trace fst snd joined fold_right].
    fold (fragment_events r rest). fold (joined rest).
    unfold exec, emitted. rewrite fragment_step. cbn [fst snd app].
    destruct (IH (match r with
                  | user =>
                      with_currentInputTransRef
                        (currentInputTransRef s ++ fragment)%string s
                  | professor =>
                      with_currentOutputTransRef
                        (currentOutputTransRef s ++ fragment)%string s
                  end)) as (H1 & H2 & H3 & H4 & H5 & H6 & H7).
    cbv zeta in *. rewrite H1, H2, H3, H4, H5, H6, H7.
    destruct r; cbn; rewrite ?string_app_assoc; repeat split; reflexivity.
Qed.

(** X10.  The flush on a turn-complete message, from a state with no update of
    the log pending.  The fragments that the message itself carries are
    appended first; then an entry is queued for each role whose
    accumulator is not empty, user before professor, and both accumulators
    are emptied.  At the next render the first entry has the accumulated
    text (and the time of the message) only if React called its updater
    when it was dispatched; if React left it to the render, as it does for
    every second entry, the entry has the empty text and the time of the
    render. *)
Theorem turn_complete_flush
    (env env' : Env) (m : LiveServerMessage) (s : State) :
  turnComplete_of m = true ->
  messagesQueue s = [] ->
  let s' := transcribed env m s in
  let first (r : Role) (acc : string) :=
    if reactIdle env
    then {| role := r; text := acc; timestamp := dateNow env |}
    else {| role := r; text := ""%string; timestamp := dateNow env' |} in
  currentInputTransRef s' = ""%string
  /\ currentOutputTransRef s' = ""%string
  /\ messages s' = messages s
  /\ messageLog env' s'
     = messages s
       ++ match truthy (input_after m s), truthy (output_after m s) with
          | true, true =>
              [first user (input_after m s);
               {| role := professor; text := ""%string;
                  timestamp := dateNow env' |}]
          | true, false => [first user (input_after m s)]
          | false, true => [first professor (output_after m s)]
          | false, false => []
          end.
Proof.
  intros Ht Hq. unfold transcribed, messageLog, render, input_after,
    output_after.
  cbv beta iota delta [handle_transcriptions bind when gets modify
                       setMessages ret exec fst snd].
  rewrite Ht. destruct s; cbn in Hq; subst.
  destruct (reactIdle env);
  destruct (inputTranscription_of m) as [ti|],
           (outputTranscription_of m) as [to|]; cbv beta iota;
    cbn [currentInputTransRef currentOutputTransRef messages
         with_currentInputTransRef with_currentOutputTransRef];
    match goal with
    | |- context [if truthy ?a then _ else _] =>
        destruct (truthy a); cbv beta iota;
        cbn [currentInputTransRef currentOutputTransRef messages
             with_messages with_currentInputTransRef
             with_currentOutputTransRef]
    end;
    match goal with
    | |- context [if truthy ?a then _ else _] => destruct (truthy a)
    end;
    cbn; rewrite ?app_nil_r, <- ?app_assoc; repeat split; reflexivity.
Qed.

Lemma turn_complete_flush_witness :
  turnComplete_of closing_message = true
  /\ messagesQueue only_user_spoke = []
  /\ messageLog (at_time 3 2401)
       (transcribed (at_time 3 2400) closing_message only_user_spoke)
     = [{| role := user; text := ""%string; timestamp := 2401 |}].
Proof.
  assert (H1 : turnComplete_of closing_message = true) by reflexivity.
  assert (H2 : messagesQueue only_user_spoke = []) by reflexivity.
  split; [exact H1|]. split; [exact H2|].
  rewrite (proj2 (proj2 (proj2
             (turn_complete_flush (at_time 3 2400) (at_time 3 2401)
                closing_message only_user_spoke H1 H2)))).
  reflexivity.
Defined.

Lemma queue_ok_setMessages env u : preserves queue_ok (setMessages env u).
Proof.
  apply preserves_modify. intros s H. unfold queue_ok in *.
  cbn [messagesQueue messages with_messages].
  destruct (messagesQueue s) as [|v rest].
  - cbn [app]. split; [|constructor].
    destruct (reactIdle env); [|left; reflexivity].
    right. destruct u as [r]. cbn [eagerState run_updater].
    eexists. reflexivity.
  - cbn [app]. destruct H as [He Hl]. split; [exact He|].
    apply Forall_app. split; [exact Hl|]. constructor; [reflexivity|constructor].
Qed.

Lemma queue_ok_render env : preserves queue_ok (render env).
Proof. apply preserves_modify. intros s _. exact I. Qed.

Lemma waiting_updates_append env s rest : forall st,
  Forall (fun v => eagerState v = None) rest ->
  exists l,
    fold_left (process_update env s) rest st = st ++ l
    /\ List.length l = List.length rest.
Proof.
  induction rest as [|v rest IH]; intros st Hl.
  - exists []. split; [symmetry; apply app_nil_r|reflexivity].
  - inversion Hl as [|? ? Hv Hrest]; subst. cbn [fold_left].
    unfold process_update at 2. rewrite Hv.
    destruct (action v) as [r]. cbn [run_updater].
    destruct (IH (st ++ [{| role := r; text := transcriptRef r s;
                            timestamp := dateNow env |}]) Hrest)
      as (l & Hf & Hlen).
    eexists. split; [rewrite Hf, <- app_assoc; reflexivity|].
    cbn [List.length app]. rewrite Hlen. reflexivity.
Qed.

Lemma render_appends env s :
  queue_ok s ->
  exists l,
    messages (exec (render env) s) = messages s ++ l
    /\ List.length l = List.length (messagesQueue s).
Proof.
  intros H. unfold exec, render, modify. cbn [fst snd messages with_messages].
  unfold queue_ok in H. destruct (messagesQueue s) as [|u rest].
  - exists []. split; [symmetry; apply app_nil_r|reflexivity].
  - destruct H as [[He|(x & He)] Hl]; cbn [fold_left];
      unfold process_update at 2; rewrite He.
    + destruct (action u) as [r]. cbn [run_updater].
      destruct (waiting_updates_append env s rest
                  (messages s ++ [{| role := r; text := transcriptRef r s;
                                     timestamp := dateNow env |}]) Hl)
        as (l & Hf & Hlen).
      eexists (_ :: l). split; [rewrite Hf, <- app_assoc; reflexivity|].
      cbn [List.length]. rewrite Hlen. reflexivity.
    + destruct (waiting_updates_append env s rest (messages s ++ [x]) Hl)
        as (l & Hf & Hlen).
      exists (x :: l). split; [rewrite Hf, <- app_assoc; reflexivity|].
      cbn [List.length]. rewrite Hlen. reflexivity.
Qed.

Ltac queue_step :=
  first
    [ assumption
    | match goal with
      | H : _ /\ _ |- _ /\ _ => destruct H; split; assumption
      end ].

Lemma queue_ok_dispatch env e : preserves queue_ok (dispatch env e).
Proof.
  destruct e; cbn [dispatch];
    unfold handleStartSession_begin, handleStartSession_stream,
      handleStartSession_session, handleStartSession_catch, onopen,
      onerror, onclose, handleStopSession, onmessage_begin,
      onmessage_resume, onended, playback_finished, track_stop,
      handle_interrupted, handle_transcriptions, source_start,
      setSessionState, setErrorMessage, setIsProfessorSpeaking;
    keep_with ltac:(first [apply queue_ok_setMessages
                          |apply queue_ok_render]);
    assignments ltac:(queue_step).
Qed.

Lemma messages_change_only_on_render env e s :
  e <> Render -> messages (exec (dispatch env e) s) = messages s.
Proof.
  intros He.
  assert (H : preserves (fun s' => messages s' = messages s)
                (dispatch env e)).
  { destruct e; try contradiction; unfold_handlers; keep;
      assignments ltac:(assumption). }
  apply H. reflexivity.
Qed.

(** X11.  The message log is append-only.  In every state that the component
    can reach, whatever event runs next leaves the entries of the rendered
    log in place and at most adds entries at the end; only a render adds
    any, one for each pending update. *)
Theorem message_log_is_append_only
    (evs : list (Env * Event)) (env : Env) (e : Event) :
  let s := run evs initial in
  (exists l, messages (exec (dispatch env e) s) = messages s ++ l)
  /\ (e <> Render -> messages (exec (dispatch env e) s) = messages s)
  /\ List.length (messageLog env s)
     = (List.length (messages s) + List.length (messagesQueue s))%nat.
Proof.
  intros s.
  assert (Hq : queue_ok s).
  { apply (run_invariant queue_ok); [apply queue_ok_dispatch|exact I]. }
  destruct (render_appends env s Hq) as (l & Hl & Hlen).
  split; [|split].
  - destruct e; try (exists []; rewrite app_nil_r;
                     apply messages_change_only_on_render; discriminate).
    exists l. exact Hl.
  - apply messages_change_only_on_render.
  - unfold messageLog. rewrite Hl, length_app, Hlen. reflexivity.
Qed.

(** ** Start, stop and the microphone *)

(** X13.  A failed start always leaves something to show: the session is in
    ERROR and the error message is a non-empty text, the error's own
    message when it has a non-empty one and the fixed fallback otherwise.
    The [catch] block releases nothing: the microphone stream, if it was
    already handed over, stays as it is and no track is stopped. *)
Theorem failed_start_shows_a_message (err : JsError) (s : State) :
  let s' := exec (handleStartSession_catch err) s in
  sessionState s' = ERROR
  /\ (exists msg,
        errorMessage s' = Some msg
        /\ truthy msg = true
        /\ (errorMessageText err = Some msg \/ msg = setupFallbackText))
  /\ (forall msg,
        errorMessageText err = Some msg -> truthy msg = true ->
        errorMessage s' = Some msg)
  /\ micStreamRef s' = micStreamRef s
  /\ emitted (handleStartSession_catch err) s = [].
Proof.
  cbv zeta. split; [reflexivity|]. split; [|split; [|split; reflexivity]].
  - unfold exec, handleStartSession_catch, bind, setErrorMessage,
      setSessionState, modify.
    cbn [fst snd errorMessage with_sessionState with_errorMessage].
    destruct (errorMessageText err) as [msg|].
    + destruct (truthy msg) eqn:E.
      * exists msg. repeat split; [exact E|left; reflexivity].
      * exists setupFallbackText. repeat split. right. reflexivity.
    + exists setupFallbackText. repeat split. right. reflexivity.
  - intros msg He Ht.
    unfold exec, handleStartSession_catch, bind, setErrorMessage,
      setSessionState, modify.
    cbn [fst snd errorMessage with_sessionState with_errorMessage].
    rewrite He, Ht. reflexivity.
Qed.

(** X14.  The stop button does not abort a start that is still under way.
    Pressed between the start click and the answer of [getUserMedia], it
    sets DISCONNECTED; the start goes on, and when the stream has been
    handed over and the session opens, the state is CONNECTED with that
    stream held and none of its tracks stopped. *)
Theorem stop_does_not_abort_a_start
    (s : State) (stream : MediaStream) (env1 env2 env3 env4 : Env) :
  let before := run [(env1, ClickStart); (env2, ClickStop)] s in
  let after := run [(env3, MicrophoneGranted stream); (env4, Open)] before in
  sessionState before = DISCONNECTED
  /\ sessionState after = CONNECTED
  /\ micStreamRef after = Some stream
  /\ trace [(env3, MicrophoneGranted stream); (env4, Open)] before = [].
Proof.
  cbv zeta. cbn [run trace dispatch].
  set (s1 := exec handleStartSession_begin s).
  assert (Hstop : exec handleStopSession s1
                  = with_sessionState DISCONNECTED
                      (reset_state
                         (with_micStreamRef (stopped (micStreamRef s1))
                            (with_sessionRef None s1))))
    by (unfold exec; rewrite handleStopSession_run; reflexivity).
  rewrite Hstop. repeat split.
Qed.

Lemma stop_in_all (stream : MediaStream) :
  map (stop_in stream) stream = map stop_track stream.
Proof.
  apply map_ext_in. intros x Hx. unfold stop_in.
  assert (E : existsb (fun t => Nat.eqb (trackId x) (trackId t)) stream
              = true).
  { apply existsb_exists. exists x. split; [exact Hx|apply Nat.eqb_refl]. }
  rewrite E. reflexivity.
Qed.

Lemma stopped_stopped (mic : option MediaStream) :
  stopped (stopped mic) = stopped mic.
Proof.
  destruct mic as [stream|]; [|reflexivity]. cbn [stopped option_map].
  f_equal. rewrite !stop_in_all, map_map. apply map_ext. intros x.
  reflexivity.
Qed.

(** X15.  A stop is final for what it released.  The close event that the
    session sends back after [close()] changes nothing, and a second stop
    leaves the same state and closes no session again. *)
Theorem stop_is_final (s : State) :
  let s1 := exec handleStopSession s in
  exec onclose s1 = s1
  /\ exec handleStopSession s1 = s1
  /\ (forall id, ~ In (SessionClose id) (emitted handleStopSession s1))
  /\ stop_calls (audioSourcesRef s1) = [].
Proof.
  cbv zeta. unfold exec, emitted. rewrite !handleStopSession_run.
  cbn [fst snd]. split; [reflexivity|]. split; [|split; [|reflexivity]].
  - cbn [micStreamRef sessionRef with_sessionState reset_state
         with_isProfessorSpeaking with_nextStartTimeRef with_audioSourcesRef
         with_micStreamRef with_sessionRef].
    rewrite stopped_stopped. destruct s; reflexivity.
  - intros id H.
    cbn [sessionRef audioSourcesRef micStreamRef with_sessionState
         reset_state with_isProfessorSpeaking with_nextStartTimeRef
         with_audioSourcesRef with_micStreamRef with_sessionRef close_calls
         stop_calls filter map app] in H.
    apply in_app_or in H. destruct H as [H|[H|[]]]; [|discriminate].
    unfold track_stops in H. destruct (stopped (micStreamRef s)); [|exact H].
    apply in_map_iff in H. destruct H as (x & Hx & _). discriminate.
Qed.

Lemma track_stop_is_of_current_stream env e s id :
  In (TrackStop id) (emitted (dispatch env e) s) -> In id (mic_ids s).
Proof.
  intros H. pose proof (only_stop_button_stops_tracks env e s id H) as ->.
  cbn [dispatch] in H. unfold emitted in H.
  rewrite handleStopSession_run in H. cbn [snd] in H.
  apply in_app_or in H. destruct H as [H|H].
  - unfold close_calls in H. destruct (sessionRef s); [|contradiction].
    destruct H as [H|[]]. discriminate.
  - apply in_app_or in H. destruct H as [H|H].
    + unfold track_stops, mic_ids in *.
      destruct (micStreamRef s) as [stream|]; [|contradiction].
      apply in_map_iff in H. destruct H as (x & Hx & Hin).
      injection Hx as <-. apply in_map. exact Hin.
    + exfalso. exact (stop_calls_only_stop _ _ H).
Qed.

Lemma mic_ids_after env e s id :
  In id (mic_ids (exec (dispatch env e) s)) ->
  In id (mic_ids s) \/ In id (granted [(env, e)]).
Proof.
  destruct e;
    match goal with
    | |- context [MicrophoneGranted] => idtac
    | |- context [ClickStop] => idtac
    | |- context [dispatch env ?ev] =>
        let H := fresh in
        assert (H : preserves (fun s' => micStreamRef s' = micStreamRef s)
                      (dispatch env ev))
          by (unfold_handlers; keep; assignments ltac:(assumption));
        unfold mic_ids at 1; rewrite (H s eq_refl); intros Hin; left;
        exact Hin
    end.
  - (* MicrophoneGranted *)
    cbn [dispatch granted]. rewrite app_nil_r. intros H. right. exact H.
  - (* ClickStop *)
    cbn [dispatch]. unfold exec. rewrite handleStopSession_run.
    cbn [fst snd]. unfold mic_ids.
    cbn [micStreamRef with_sessionState reset_state
         with_isProfessorSpeaking with_nextStartTimeRef with_audioSourcesRef
         with_micStreamRef].
    destruct (micStreamRef s) as [stream|]; cbn [stopped option_map];
      [|intros []].
    rewrite stop_in_all, map_map. cbn [trackId stop_track].
    intros H. left. exact H.
Qed.

Lemma stopped_tracks_were_held evs : forall s id,
  In (TrackStop id) (trace evs s) ->
  In id (mic_ids s) \/ In id (granted evs).
Proof.
  induction evs as [|[env e] rest IH]; intros s id H; [destruct H|].
  cbn [trace] in H. apply in_app_or in H.
  assert (Hg : forall x, In x (granted [(env, e)]) \/ In x (granted rest) ->
                         In x (granted ((env, e) :: rest))).
  { intros x. destruct e; cbn [granted]; rewrite ?app_nil_r;
      try (intros [[]|Hx]; exact Hx).
    intros [Hx|Hx]; apply in_or_app; [left|right]; exact Hx. }
  destruct H as [H|H].
  - left. exact (track_stop_is_of_current_stream env e s id H).
  - destruct (IH _ _ H) as [Hm|Hr].
    + destruct (mic_ids_after env e s id Hm) as [Hs|Hgr];
        [left; exact Hs|right; apply Hg; left; exact Hgr].
    + right. apply Hg. right. exact Hr.
Qed.

(** X16.  Only the tracks of the stream that [micStreamRef] holds are ever
    stopped.  So once [getUserMedia] has handed over a new stream (a
    restart), every track stopped from then on belongs to that stream or to
    one handed over later: the tracks of the stream held before are never
    stopped, by no sequence of events. *)
Theorem replaced_stream_is_never_stopped
    (s : State) (env : Env) (stream : MediaStream)
    (rest : list (Env * Event)) (id : nat) :
  In (TrackStop id) (trace ((env, MicrophoneGranted stream) :: rest) s) ->
  In id (map trackId stream) \/ In id (granted rest).
Proof.
  intros H. cbn [trace dispatch] in H.
  change (emitted (handleStartSession_stream stream) s) with (@nil Effect)
    in H.
  cbn [app] in H.
  destruct (stopped_tracks_were_held rest _ id H) as [Hm|Hr];
    [left; exact Hm|right; exact Hr].
Qed.

Lemma replaced_stream_is_never_stopped_witness :
  In (TrackStop 5)
     (trace [(at_time 0 5000,
              MicrophoneGranted [{| trackId := 5; readyState := live |}]);
             (at_time 0 5100, Open);
             (at_time 1 6000, ClickStop)] playing)
  /\ trace [(at_time 0 5000,
             MicrophoneGranted [{| trackId := 5; readyState := live |}]);
            (at_time 0 5100, Open);
            (at_time 1 6000, ClickStop)] playing
     = [SessionClose 7; TrackStop 5; SourceStop 0; SourcesCleared]
  /\ mic_ids playing = [0%nat]
  /\ (In 5%nat (map trackId [{| trackId := 5; readyState := live |}])
      \/ In 5%nat (granted [(at_time 0 5100, Open);
                            (at_time 1 6000, ClickStop)])).
Proof.
  assert (H : In (TrackStop 5)
                (trace [(at_time 0 5000,
                         MicrophoneGranted
                           [{| trackId := 5; readyState := live |}]);
                        (at_time 0 5100, Open);
                        (at_time 1 6000, ClickStop)] playing))
    by (vm_compute; right; left; reflexivity).
  split; [exact H|]. split; [reflexivity|]. split; [reflexivity|].
  exact (replaced_stream_is_never_stopped playing _ _ _ 5%nat H).
Defined.

End AppMore.

(* ================================================================== *)
(** * Properties of the capture path *)

Module CaptureFacts.
Import App Capture.

Section WithEncoder.

Variables Frame MediaBlob : Type.
Variable createBlobFromPCM : Frame -> MediaBlob.

Lemma capture_run_cons e rest p :
  capture_run Frame MediaBlob createBlobFromPCM (e :: rest) p
  = capture_run Frame MediaBlob createBlobFromPCM rest
      (capture_step Frame MediaBlob createBlobFromPCM e p).
Proof. reflexivity. Qed.

Lemma run_fulfilled (sess : Session) (evs : list (CaptureEvent Frame)) :
  forall sent n,
    sentRealtimeInput MediaBlob
      (capture_run Frame MediaBlob createBlobFromPCM evs
         {| sessionPromise := Fulfilled MediaBlob (Some sess);
            sentRealtimeInput := sent; unhandledRejections := n |})
    = sent ++ map (fun f => (sessionId sess, createBlobFromPCM f))
             (frames_of Frame evs).
Proof.
  induction evs as [|e rest IH]; intros sent n;
    [symmetry; apply app_nil_r|].
  rewrite capture_run_cons. destruct e as [f|session|].
  - change (capture_step Frame MediaBlob createBlobFromPCM
              (AudioProcess Frame f)
              {| sessionPromise := Fulfilled MediaBlob (Some sess);
                 sentRealtimeInput := sent; unhandledRejections := n |})
      with {| sessionPromise := Fulfilled MediaBlob (Some sess);
              sentRealtimeInput :=
                sent ++ [(sessionId sess, createBlobFromPCM f)];
              unhandledRejections := n |}.
    rewrite IH. cbn [frames_of map].
    rewrite <- app_assoc. reflexivity.
  - apply IH.
  - apply IH.
Qed.

Lemma run_waiting (sess : Session) (evs : list (CaptureEvent Frame)) :
  forall callbacks sent n,
    first_settled_with Frame sess evs = true ->
    sentRealtimeInput MediaBlob
      (capture_run Frame MediaBlob createBlobFromPCM evs
         {| sessionPromise := Waiting MediaBlob callbacks;
            sentRealtimeInput := sent; unhandledRejections := n |})
    = sent
      ++ map (fun b => (sessionId sess, b))
           (callbacks ++ map createBlobFromPCM (frames_of Frame evs)).
Proof.
  induction evs as [|e rest IH]; intros callbacks sent n H; [discriminate|].
  rewrite capture_run_cons.
  destruct e as [f|[s'|]|]; cbn [first_settled_with] in H;
    try discriminate.
  - change (capture_step Frame MediaBlob createBlobFromPCM
              (AudioProcess Frame f)
              {| sessionPromise := Waiting MediaBlob callbacks;
                 sentRealtimeInput := sent; unhandledRejections := n |})
      with {| sessionPromise :=
                Waiting MediaBlob (callbacks ++ [createBlobFromPCM f]);
              sentRealtimeInput := sent; unhandledRejections := n |}.
    rewrite (IH _ _ _ H). cbn [frames_of map]. rewrite <- app_assoc.
    reflexivity.
  - apply Nat.eqb_eq in H.
    change (capture_step Frame MediaBlob createBlobFromPCM
              (Fulfil Frame (Some s'))
              {| sessionPromise := Waiting MediaBlob callbacks;
                 sentRealtimeInput := sent; unhandledRejections := n |})
      with {| sessionPromise := Fulfilled MediaBlob (Some s');
              sentRealtimeInput :=
                sent ++ map (fun b => (sessionId s', b)) callbacks;
              unhandledRejections := n |}.
    rewrite run_fulfilled, H. cbn [frames_of].
    rewrite map_app, map_map, app_assoc. reflexivity.
Qed.

(** X17.  Every frame that the script processor delivers is sent to the session
    exactly once and in capture order, whenever the session promise is
    fulfilled with a session: frames captured before that are held by
    their [then] callbacks and sent at that moment, later frames are sent
    as they come. *)
Theorem capture_forwards_every_frame_in_order
    (sess : Session) (evs : list (CaptureEvent Frame)) :
  first_settled_with Frame sess evs = true ->
  sentRealtimeInput MediaBlob
    (capture_run Frame MediaBlob createBlobFromPCM evs (opened MediaBlob))
  = map (fun f => (sessionId sess, createBlobFromPCM f))
      (frames_of Frame evs).
Proof.
  intros H. unfold opened.
  rewrite (run_waiting sess evs [] [] 0%nat H).
  cbn [app]. rewrite map_map. reflexivity.
Qed.

Lemma run_rejected (evs : list (CaptureEvent Frame)) :
  forall sent n,
    capture_run Frame MediaBlob createBlobFromPCM evs
      {| sessionPromise := Rejected MediaBlob;
         sentRealtimeInput := sent; unhandledRejections := n |}
    = {| sessionPromise := Rejected MediaBlob;
         sentRealtimeInput := sent;
         unhandledRejections := (n + List.length (frames_of Frame evs))%nat |}.
Proof.
  induction evs as [|e rest IH]; intros sent n.
  - cbn [frames_of List.length]. rewrite Nat.add_0_r. reflexivity.
  - rewrite capture_run_cons. destruct e as [f|session|].
    + change (capture_step Frame MediaBlob createBlobFromPCM
                (AudioProcess Frame f)
                {| sessionPromise := Rejected MediaBlob;
                   sentRealtimeInput := sent; unhandledRejections := n |})
        with {| sessionPromise := Rejected MediaBlob;
                sentRealtimeInput := sent; unhandledRejections := S n |}.
      rewrite IH. cbn [frames_of List.length].
      rewrite Nat.add_succ_r. reflexivity.
    + apply IH.
    + apply IH.
Qed.

Lemma run_fulfilled_with_null (evs : list (CaptureEvent Frame)) :
  forall sent n,
    capture_run Frame MediaBlob createBlobFromPCM evs
      {| sessionPromise := Fulfilled MediaBlob None;
         sentRealtimeInput := sent; unhandledRejections := n |}
    = {| sessionPromise := Fulfilled MediaBlob None;
         sentRealtimeInput := sent; unhandledRejections := n |}.
Proof.
  induction evs as [|e rest IH]; intros sent n; [reflexivity|].
  rewrite capture_run_cons. destruct e as [f|session|]; apply IH.
Qed.

Lemma run_without_session (evs : list (CaptureEvent Frame)) :
  forall callbacks,
    (forall sess, first_settled_with Frame sess evs = false) ->
    let p := capture_run Frame MediaBlob createBlobFromPCM evs
               {| sessionPromise := Waiting MediaBlob callbacks;
                  sentRealtimeInput := []; unhandledRejections := 0%nat |} in
    sentRealtimeInput MediaBlob p = []
    /\ (sessionPromise MediaBlob p = Rejected MediaBlob ->
        unhandledRejections MediaBlob p
        = (List.length callbacks + List.length (frames_of Frame evs))%nat)
    /\ (sessionPromise MediaBlob p <> Rejected MediaBlob ->
        unhandledRejections MediaBlob p = 0%nat)
    /\ (forall waiting,
          sessionPromise MediaBlob p = Waiting MediaBlob waiting ->
          waiting
          = callbacks ++ map createBlobFromPCM (frames_of Frame evs)).
Proof.
  induction evs as [|e rest IH]; intros callbacks H; cbv zeta.
  - cbn [capture_run fold_left sessionPromise sentRealtimeInput
         unhandledRejections frames_of map].
    split; [reflexivity|]. split; [discriminate|].
    split; [reflexivity|]. intros waiting Hw. injection Hw as <-.
    symmetry. apply app_nil_r.
  - rewrite capture_run_cons. destruct e as [f|[s'|]|].
    + change (capture_step Frame MediaBlob createBlobFromPCM
                (AudioProcess Frame f)
                {| sessionPromise := Waiting MediaBlob callbacks;
                   sentRealtimeInput := []; unhandledRejections := 0%nat |})
        with {| sessionPromise :=
                  Waiting MediaBlob (callbacks ++ [createBlobFromPCM f]);
                sentRealtimeInput := []; unhandledRejections := 0%nat |}.
      destruct (IH (callbacks ++ [createBlobFromPCM f])
                  (fun sess => H sess)) as (H1 & H2 & H3 & H4).
      split; [exact H1|]. split; [|split; [exact H3|]].
      * intros Hr. rewrite (H2 Hr), length_app. cbn [frames_of List.length].
        rewrite <- Nat.add_assoc. reflexivity.
      * intros waiting Hw. rewrite (H4 waiting Hw).
        cbn [frames_of map]. rewrite <- app_assoc. reflexivity.
    + specialize (H s'). cbn [first_settled_with] in H.
      rewrite Nat.eqb_refl in H. discriminate.
    + change (capture_step Frame MediaBlob createBlobFromPCM
                (Fulfil Frame None)
                {| sessionPromise := Waiting MediaBlob callbacks;
                   sentRealtimeInput := []; unhandledRejections := 0%nat |})
        with {| sessionPromise := Fulfilled MediaBlob None;
                sentRealtimeInput := []; unhandledRejections := 0%nat |}.
      rewrite run_fulfilled_with_null.
      cbn [sessionPromise sentRealtimeInput unhandledRejections].
      split; [reflexivity|]. split; [discriminate|].
      split; [reflexivity|discriminate].
    + change (capture_step Frame MediaBlob createBlobFromPCM
                (Reject Frame)
                {| sessionPromise := Waiting MediaBlob callbacks;
                   sentRealtimeInput := []; unhandledRejections := 0%nat |})
        with {| sessionPromise := Rejected MediaBlob;
                sentRealtimeInput := [];
                unhandledRejections := (0 + List.length callbacks)%nat |}.
      rewrite run_rejected.
      cbn [sessionPromise sentRealtimeInput unhandledRejections frames_of].
      split; [reflexivity|]. split; [intros _; reflexivity|].
      split; [intros Hn; contradiction Hn; reflexivity|discriminate].
Qed.

(** X18.  Nothing is sent before the session promise is fulfilled, and nothing
    at all when it is rejected or fulfilled without a session.  While the
    promise is pending the frames are held by their [then] callbacks; when
    it is fulfilled without a session they are dropped without an error;
    when it is rejected every captured frame, before or after the
    rejection, gives one unhandled rejection. *)
Theorem capture_sends_nothing_without_a_session
    (evs : list (CaptureEvent Frame)) :
  (forall sess, first_settled_with Frame sess evs = false) ->
  let p := capture_run Frame MediaBlob createBlobFromPCM evs
             (opened MediaBlob) in
  sentRealtimeInput MediaBlob p = []
  /\ (sessionPromise MediaBlob p = Rejected MediaBlob ->
      unhandledRejections MediaBlob p = List.length (frames_of Frame evs))
  /\ (sessionPromise MediaBlob p <> Rejected MediaBlob ->
      unhandledRejections MediaBlob p = 0%nat)
  /\ (forall waiting,
        sessionPromise MediaBlob p = Waiting MediaBlob waiting ->
        waiting = map createBlobFromPCM (frames_of Frame evs)).
Proof.
  intros H. exact (run_without_session evs [] H).
Qed.

End WithEncoder.

Lemma capture_forwards_every_frame_in_order_witness :
  let evs := [AudioProcess nat 1%nat; AudioProcess nat 2%nat;
              Fulfil nat (Some {| sessionId := 7 |});
              AudioProcess nat 3%nat; Reject nat] in
  first_settled_with nat {| sessionId := 7 |} evs = true
  /\ sentRealtimeInput nat
       (capture_run nat nat (fun f => (10 * f)%nat) evs (opened nat))
     = [(7, 10); (7, 20); (7, 30)]%nat.
Proof.
  cbv zeta.
  assert (H : first_settled_with nat {| sessionId := 7 |}
                [AudioProcess nat 1%nat; AudioProcess nat 2%nat;
                 Fulfil nat (Some {| sessionId := 7 |});
                 AudioProcess nat 3%nat; Reject nat] = true) by reflexivity.
  split; [exact H|].
  rewrite (capture_forwards_every_frame_in_order nat nat
             (fun f => (10 * f)%nat) {| sessionId := 7 |} _ H).
  reflexivity.
Defined.

Lemma capture_sends_nothing_without_a_session_witness :
  let evs := [AudioProcess nat 1%nat; Reject nat; AudioProcess nat 2%nat;
              Fulfil nat (Some {| sessionId := 7 |})] in
  let p := capture_run nat nat (fun f => (10 * f)%nat) evs (opened nat) in
  (forall sess, first_settled_with nat sess evs = false)
  /\ sentRealtimeInput nat p = []
  /\ sessionPromise nat p = Rejected nat
  /\ unhandledRejections nat p = 2%nat.
Proof.
  cbv zeta.
  assert (H : forall sess,
            first_settled_with nat sess
              [AudioProcess nat 1%nat; Reject nat; AudioProcess nat 2%nat;
               Fulfil nat (Some {| sessionId := 7 |})] = false)
    by (intros sess; reflexivity).
  pose proof (capture_sends_nothing_without_a_session nat nat
                (fun f => (10 * f)%nat) _ H) as (H1 & H2 & _).
  split; [exact H|]. split; [exact H1|]. split; [reflexivity|].
  exact (H2 eq_refl).
Defined.

End CaptureFacts.
